(** * Invoice reader: the batch extraction pipeline

    A shallow embedding of the page component [Home] (the selection of files,
    [processInvoices], [extractInvoiceData], [sanitizeInvoiceNumber],
    [downloadExcel]) and of the route handler [POST] of [/api/extract],
    followed by the properties of the specification that concern them.

    JavaScript strings are sequences of UTF-16 code units. What
    [JSON.parse] returns is a JavaScript value of any shape, and the records
    that [processInvoices] builds from it are objects with whatever
    properties that value brings. The React state is a record that the
    handlers take and return. The promises of a batch are the slots of a
    list, which the events of the browser (a reader has loaded, a reader has
    failed, a network call has settled) fill one at a time and in any order.
    Worksheets and workbooks are references into a store. *)

From Equations Require Import Equations.
From stdpp Require Import base option list numbers strings.
From Stdlib Require Import NArith DecimalString.

Set Default Proof Using "Type".

(** ** JavaScript strings *)

Definition char16 : Type := N.
Definition jsstring : Type := list char16.

(** An ASCII literal of the source as a sequence of code units. *)
Definition lit (s : string) : jsstring :=
  (fun a => Ascii.N_of_ascii a) <$> String.list_ascii_of_string s.

(** [s1 === s2] on strings. *)
Definition str_eqb (s1 s2 : jsstring) : bool := bool_decide (s1 = s2).

(** Truthiness of a possibly absent string: [undefined], [null] and [''] are
    falsy. *)
Definition truthy (v : option jsstring) : bool :=
  match v with
  | Some (_ :: _) => true
  | _ => false
  end.

(** [v || ''] *)
Definition or_empty (v : option jsstring) : jsstring :=
  match v with
  | Some s => s
  | None => []
  end.

(** [`${n}`] for a non-negative integer. *)
Definition number_to_string (n : nat) : jsstring :=
  lit (NilEmpty.string_of_uint (Nat.to_uint n)).

(** [s.split(sep)] for a separator of one code unit: the pieces between the
    occurrences of [sep], at least one piece. *)
Fixpoint split (sep : char16) (s : jsstring) : list jsstring :=
  match s with
  | [] => [[]]
  | c :: t =>
      if N.eqb c sep then [] :: split sep t
      else match split sep t with
           | piece :: pieces => (c :: piece) :: pieces
           | [] => [[c]]
           end
  end.

Definition comma : char16 := 44%N.

(** ** JavaScript values *)

(** A number as [JSON.parse] gives it: the double [m * 2^e], or an infinity
    where the literal is beyond the doubles. *)
Inductive number : Type :=
| Double (m e : Z)
| Infinity (negative : bool).

(** A value as [JSON.parse] gives it. The members of an object are in the
    order of the text; of a key written twice the later value counts. *)
#[warnings="-register-all"] Inductive json : Type :=
| JNull
| JBool (b : bool)
| JNumber (x : number)
| JString (s : jsstring)
| JArray (items : list json)
| JObject (members : list (jsstring * json)).

(** Truthiness of a value; [None] is [undefined]. The falsy values are
    [undefined], [null], [false], [0] and ['']. *)
Definition truthy_value (v : option json) : bool :=
  match v with
  | None => false
  | Some JNull => false
  | Some (JBool b) => b
  | Some (JNumber (Double m _)) => negb (m =? 0)%Z
  | Some (JNumber (Infinity _)) => true
  | Some (JString s) => truthy (Some s)
  | Some (JArray _) => true
  | Some (JObject _) => true
  end.

(** A plain object: its own properties, every key once. *)
Definition JSObject : Type := list (jsstring * json).

(** [o[key]], for a key that is not a property of [Object.prototype];
    [None] is [undefined]. *)
Fixpoint get (key : jsstring) (o : JSObject) : option json :=
  match o with
  | [] => None
  | (k, v) :: rest => if str_eqb k key then Some v else get key rest
  end.

(** [o[key] = v]: the property keeps its place when the object has it, and
    comes last otherwise. *)
Fixpoint put (key : jsstring) (v : json) (o : JSObject) : JSObject :=
  match o with
  | [] => [(key, v)]
  | (k, v0) :: rest =>
      if str_eqb k key then (k, v) :: rest else (k, v0) :: put key v rest
  end.

(** The properties that a spread [...v] copies: the members of an object,
    the elements of an array and the code units of a string under their
    indices, and nothing of [null], a boolean or a number. *)
Definition own_properties (v : json) : list (jsstring * json) :=
  match v with
  | JObject members => members
  | JArray items => imap (fun i item => (number_to_string i, item)) items
  | JString s => imap (fun i c => (number_to_string i, JString [c])) s
  | _ => []
  end.

(** [{ ...o, ...v }]: the properties of [v] are written one after the other
    onto the properties of [o]. *)
Definition spread (o : JSObject) (v : json) : JSObject :=
  foldl (fun acc kv => put kv.1 kv.2 acc) o (own_properties v).

(** The value that a spread of [v] writes under [key], if it writes one. *)
Definition copied (key : jsstring) (v : json) : option json :=
  get key (spread [] v).

(** ** Sanitizer: [sanitizeInvoiceNumber] *)

(** [\d]: the code units of ['0'] to ['9']. *)
Definition is_digit (c : char16) : bool :=
  (48 <=? c)%N && (c <=? 57)%N.

(** A regular expression is used through its matcher: [re s = Some n] when
    the expression matches at the start of [s] and the (greedy) match is the
    first [n] code units. *)
Definition regex : Type := jsstring -> option nat.

(** The length of the longest prefix of non-digits. *)
Fixpoint nondigit_prefix (s : jsstring) : nat :=
  match s with
  | [] => 0
  | c :: t => if is_digit c then 0 else S (nondigit_prefix t)
  end.

(** [/\D+/]: one or more non-digits, as many as there are. *)
Definition re_nondigits : regex := fun s =>
  match nondigit_prefix s with
  | 0 => None
  | S n => Some (S n)
  end.

(** [s.replace(re, replacement)] with the [g] flag: scanning from the left,
    every match is replaced and the scan resumes after it; a code unit at
    which nothing matches is kept. An empty match inserts the replacement
    and keeps the code unit. *)
Equations? replace_global (re : regex) (replacement s : jsstring) : jsstring
  by wf (length s) lt :=
  replace_global re replacement [] :=
    match re [] with Some _ => replacement | None => [] end;
  replace_global re replacement (c :: t) with re (c :: t) := {
    | Some (S n) := replacement ++ replace_global re replacement (drop n t)
    | Some 0 := replacement ++ c :: replace_global re replacement t
    | None := c :: replace_global re replacement t }.
Proof. all: simpl; try lia. rewrite length_drop. lia. Qed.

(** <<
const sanitizeInvoiceNumber = (raw: string): string => {
  const digitsOnly = (raw || '').replace(/\D+/g, '');
  return digitsOnly;
};
>> The argument is optional in the model: the guard [raw || ''] is there for
    a value that is absent at run time. *)
Definition sanitizeInvoiceNumber (raw : option jsstring) : jsstring :=
  let digitsOnly := replace_global re_nondigits [] (or_empty raw) in
  digitsOnly.

(** The digit subsequence of a string, in the words of the specification:
    "only its decimal-digit characters, concatenated in original order". *)
Definition digit_subsequence (s : jsstring) : jsstring := List.filter is_digit s.

(** [/^[0-9]*$/.test(s)] *)
Definition digits_only (s : jsstring) : bool := forallb is_digit s.

(** ** Data model *)

Module File.
(** The part of a browser [File] that the component reads. *)
Record t : Type := mk { name : jsstring; size : N }.

(** [existingFile.name === newFile.name && existingFile.size === newFile.size] *)
Definition same (existingFile newFile : t) : bool :=
  str_eqb (name existingFile) (name newFile)
  && N.eqb (size existingFile) (size newFile).

Definition key (f : t) : jsstring * N := (name f, size f).

#[export] Instance eq_dec : EqDecision t.
Proof. solve_decision. Defined.
End File.
Export (hints) File.

(** [interface ExtractedInvoiceData]: a record of the results as the
    component declares it. *)
Record ExtractedInvoiceData : Type := mkExtractedInvoiceData {
  fileName : jsstring;
  invoiceNumber : jsstring;
  companyNumber : jsstring;
  date : jsstring;
  totalAmount : jsstring }.

(** A record of the declared type as the object it is. *)
Definition to_object (r : ExtractedInvoiceData) : JSObject :=
  [ (lit "fileName", JString (fileName r));
    (lit "invoiceNumber", JString (invoiceNumber r));
    (lit "companyNumber", JString (companyNumber r));
    (lit "date", JString (date r));
    (lit "totalAmount", JString (totalAmount r)) ].

Definition as_string (v : option json) : option jsstring :=
  match v with
  | Some (JString s) => Some s
  | _ => None
  end.

(** An object at the declared type, when its five fields are strings; the
    component reads no other property of a record. *)
Definition typed (o : JSObject) : option ExtractedInvoiceData :=
  fileName ← as_string (get (lit "fileName") o);
  invoiceNumber ← as_string (get (lit "invoiceNumber") o);
  companyNumber ← as_string (get (lit "companyNumber") o);
  date ← as_string (get (lit "date") o);
  totalAmount ← as_string (get (lit "totalAmount") o);
  Some {| fileName := fileName; invoiceNumber := invoiceNumber;
          companyNumber := companyNumber; date := date;
          totalAmount := totalAmount |}.

(** The React state of [Home]. Its results are declared as
    [ExtractedInvoiceData[]]; at run time they are the objects that
    [processInvoices] stored, so the state is given for any type [R] of
    records. *)
Record StateOf (R : Type) : Type := mkState {
  selectedFiles : list File.t;
  extractedData : list R;
  isLoading : bool;
  error : jsstring }.

Arguments mkState {R} _ _ _ _.
Arguments selectedFiles {R} _.
Arguments extractedData {R} _.
Arguments isLoading {R} _.
Arguments error {R} _.

(** The state at the declared type of its results. *)
Definition State : Type := StateOf ExtractedInvoiceData.

Definition initialState : State :=
  {| selectedFiles := []; extractedData := []; isLoading := false; error := [] |}.

Definition setSelectedFiles {R} (v : list File.t) (st : StateOf R) : StateOf R :=
  {| selectedFiles := v; extractedData := extractedData st;
     isLoading := isLoading st; error := error st |}.

Definition setExtractedData {R R'} (v : list R') (st : StateOf R) : StateOf R' :=
  {| selectedFiles := selectedFiles st; extractedData := v;
     isLoading := isLoading st; error := error st |}.

Definition setIsLoading {R} (v : bool) (st : StateOf R) : StateOf R :=
  {| selectedFiles := selectedFiles st; extractedData := extractedData st;
     isLoading := v; error := error st |}.

Definition setError {R} (v : jsstring) (st : StateOf R) : StateOf R :=
  {| selectedFiles := selectedFiles st; extractedData := extractedData st;
     isLoading := isLoading st; error := v |}.

(** ** Selection: [handleFileSelection] and [removeFile] *)

Definition MAX_FILES : nat := 10.

(** <<
`Cannot add ${newFiles.length} file(s). Maximum of 10 files allowed. Currently have ${selectedFiles.length} files selected.`
>> *)
Definition capMessage (added current : nat) : jsstring :=
  lit "Cannot add " ++ number_to_string added
  ++ lit " file(s). Maximum of 10 files allowed. Currently have "
  ++ number_to_string current ++ lit " files selected.".

(** The chosen files that no selected file matches by name and size. *)
Definition filesToAdd (selected newFiles : list File.t) : list File.t :=
  List.filter
    (fun newFile =>
       negb (existsb (fun existingFile => File.same existingFile newFile) selected))
    newFiles.

(** The change event of the file input; [files] is [event.target.files]
    ([None] for [null]). The functional update of [setSelectedFiles] is
    applied to the state the handler was rendered with. *)
Definition handleFileSelection {R} (files : option (list File.t)) (st : StateOf R)
    : StateOf R :=
  match files with
  | Some ((_ :: _) as newFiles) =>
      let totalFilesAfterAddition := length (selectedFiles st) + length newFiles in
      if MAX_FILES <? totalFilesAfterAddition then
        setError (capMessage (length newFiles) (length (selectedFiles st))) st
      else
        let toAdd := filesToAdd (selectedFiles st) newFiles in
        if 0 <? length toAdd then
          setError [] (setSelectedFiles (selectedFiles st ++ toAdd) st)
        else st
  | _ => st
  end.

(** [prevFiles.filter((_, index) => index !== indexToRemove)] *)
Fixpoint remove_index {A} (indexToRemove : nat) (l : list A) : list A :=
  match l, indexToRemove with
  | [], _ => []
  | _ :: t, 0 => t
  | x :: t, S i => x :: remove_index i t
  end.

Definition removeFile {R} (indexToRemove : nat) (st : StateOf R) : StateOf R :=
  setError [] (setSelectedFiles (remove_index indexToRemove (selectedFiles st)) st).

(** What the user does to the selection. *)
Inductive Action : Type :=
| Choose (files : option (list File.t))
| Remove (index : nat).

Definition act {R} (st : StateOf R) (a : Action) : StateOf R :=
  match a with
  | Choose files => handleFileSelection files st
  | Remove index => removeFile index st
  end.

(** ** The selection in the words of the specification *)

(** The selection has no two files with the same name and size. *)
Definition distinct_files (l : list File.t) : Prop := NoDup (File.key <$> l).

(** A file of the batch is new when no selected file has its name and size. *)
Definition new_file (selected : list File.t) (f : File.t) : Prop :=
  File.key f ∉ File.key <$> selected.

(** Deduplication as the specification states it: the selection stays free
    of duplicates, and every new file of the chosen batch is in it after the
    call. *)
Definition deduplication_as_stated (st : State) (chosen : list File.t) : Prop :=
  let st' := handleFileSelection (Some chosen) st in
  (distinct_files (selectedFiles st) -> distinct_files (selectedFiles st'))
  /\ (forall f, f ∈ chosen -> new_file (selectedFiles st) f -> f ∈ selectedFiles st').

(** The states that the user can bring the selection to. *)
Definition run_actions {R} (st : StateOf R) (actions : list Action) : StateOf R :=
  foldl act st actions.


(** ** Extraction gateway: the route [POST /api/extract] and its client
       [extractInvoiceData] *)

(** The response envelope of the model, as far as the client reads it:
    [result.candidates?.[0]?.content?.parts?.[0]?.text]. Every level may be
    absent. *)
Record Part : Type := mkPart { text : option jsstring }.
Record Content : Type := mkContent { parts : option (list Part) }.
Record Candidate : Type := mkCandidate { content : option Content }.
Record Envelope : Type := mkEnvelope { candidates : option (list Candidate) }.

(** [JSON.parse]: the value that the text stands for, [None] when it
    throws. The function belongs to the platform, the development holds for
    every one. *)
Class JSON : Type := JSON_parse : jsstring -> option json.

(** [200 <= status <= 299] *)
Definition ok_status (status : N) : bool :=
  (200 <=? status)%N && (status <=? 299)%N.

Module Route.
(** The request body after [req.json()] and the answer of the model
    endpoint after [fetch]. *)
Record Body : Type := mkBody {
  base64ImageData : option jsstring;
  prompt : option jsstring }.

Record Upstream : Type := mkUpstream {
  upstream_status : N;
  upstream_json : option Envelope (* [None]: the body is not JSON *) }.

Record Env : Type := mkEnv {
  request : option Body            (* [None]: [req.json()] rejects *);
  GEMINI_API_KEY : option jsstring (* [process.env.GEMINI_API_KEY] *);
  upstream : option Upstream       (* [None]: [fetch] rejects *) }.

Inductive Payload : Type :=
| ErrorPayload (error : jsstring)
| ResultPayload (result : Envelope).

Definition Reply : Type := (N * Payload)%type.

(** The statuses that a response with a body cannot have. *)
Definition null_body_status (status : N) : bool :=
  bool_decide (status ∈ [101; 103; 204; 205; 304]%N).

(** [NextResponse.json(payload, { status })]; [None] when the constructor
    throws (status out of range, or a body with a null-body status). *)
Definition NextResponse_json (payload : Payload) (status : N) : option Reply :=
  if (200 <=? status)%N && (status <=? 599)%N && negb (null_body_status status)
  then Some (status, payload)
  else None.

(** The body of the [try] block. *)
Definition attempt (env : Env) : option Reply :=
  body ← request env;
  if negb (truthy (base64ImageData body)) || negb (truthy (prompt body)) then
    NextResponse_json (ErrorPayload (lit "Missing base64ImageData or prompt")) 400
  else if negb (truthy (GEMINI_API_KEY env)) then
    NextResponse_json (ErrorPayload (lit "Server misconfigured: missing GEMINI_API_KEY")) 500
  else
    upstreamResponse ← upstream env;
    if negb (ok_status (upstream_status upstreamResponse)) then
      NextResponse_json (ErrorPayload (lit "Upstream error"))
                        (upstream_status upstreamResponse)
    else
      result ← upstream_json upstreamResponse;
      NextResponse_json (ResultPayload result) 200.

(** [export async function POST(req)]: whatever is thrown in the [try]
    block is answered with status 500. *)
Definition POST (env : Env) : Reply :=
  match attempt env with
  | Some reply => reply
  | None => (500%N, ErrorPayload (lit "Server exception"))
  end.
End Route.

(** The response of [fetch('/api/extract', ...)] as the client uses it. *)
Record Response : Type := mkResponse {
  status : N;
  response_text : jsstring           (* [await response.text()] *);
  response_json : option Envelope    (* [await response.json()], [None]: rejects *) }.

Definition ok (response : Response) : bool := ok_status (status response).

Inductive FetchOutcome : Type :=
| NetworkFailure                     (* the promise of [fetch] rejects *)
| Responded (response : Response).

(** A reply of the route as the client receives it, whatever its text. *)
Definition served (reply : Route.Reply) (bodyText : jsstring) : Response :=
  {| status := fst reply;
     response_text := bodyText;
     response_json :=
       Some (match snd reply with
             | Route.ResultPayload result => result
             | Route.ErrorPayload _ => {| candidates := None |}
             end) |}.

(** What [extractInvoiceData] throws. *)
Inductive Exn : Type :=
| FetchFailed
| ServerExtractionFailed (errText : jsstring)
| BodyNotJSON
| NoStructuredResult
| SyntaxError.

(** [extractInvoiceData(base64ImageData)] given the outcome of its network
    call: what [JSON.parse] made of the text, returned as it is (the return
    type [Omit<ExtractedInvoiceData, 'fileName'>] is not checked at run
    time), or the exception. The payload and the prompt only go into the
    request. *)
Definition extractInvoiceData `{JSON} (base64ImageData : jsstring)
    (answer : FetchOutcome) : json + Exn :=
  match answer with
  | NetworkFailure => inr FetchFailed
  | Responded response =>
      if negb (ok response) then
        let errText := response_text response in
        inr (ServerExtractionFailed errText)
      else
        match response_json response with
        | None => inr BodyNotJSON
        | Some result =>
            let candidate : option Candidate := candidates result ≫= head in
            let candidateParts : option (list Part) :=
              (candidate ≫= content) ≫= parts in
            let firstPart : option Part := candidateParts ≫= head in
            let candidateText : option jsstring := firstPart ≫= text in
            if truthy candidateText then
              match JSON_parse (or_empty candidateText) with
              | Some data => inl data
              | None => inr SyntaxError
              end
            else inr NoStructuredResult
        end
  end.

(** ** Batch orchestrator: [processInvoices] *)

(** <<
{ fileName: file.name, invoiceNumber: 'Error', companyNumber: 'Error',
  date: 'Error', totalAmount: 'Error' }
>> *)
Definition errorRecord (file : File.t) : JSObject :=
  [ (lit "fileName", JString (File.name file));
    (lit "invoiceNumber", JString (lit "Error"));
    (lit "companyNumber", JString (lit "Error"));
    (lit "date", JString (lit "Error"));
    (lit "totalAmount", JString (lit "Error")) ].

(** [{ fileName: file.name, ...data }], where [data] is what
    [extractInvoiceData] returned: its properties are copied after
    [fileName] is written, so a [fileName] of [data] takes the place of the
    name of the file. *)
Definition withFileName (file : File.t) (data : json) : JSObject :=
  spread [ (lit "fileName", JString (File.name file)) ] data.

(** A settled promise. The executor of [processInvoices] is only given
    [resolve]; [Rejected] is what [Promise.all] and the [catch] branch
    would see. *)
Inductive Settlement : Type :=
| Fulfilled (value : JSObject)
| Rejected (reason : Exn).

(** Where the task of one file stands: the reader is at work, the network
    call is awaited, or the promise is settled. In the first two the
    promise is pending. *)
Inductive Task : Type :=
| Reading
| Extracting (base64ImageData : jsstring)
| Settled (s : Settlement).

(** What the browser delivers to a run, one at a time, and what the user does
    to the selection meanwhile (the button that starts a run is disabled
    while one is busy). [i] is the position of the file in the batch. *)
Inductive Event : Type :=
| ReaderLoad (i : nat) (result : option jsstring)
| ReaderError (i : nat)
| ExtractionSettled (i : nat) (answer : FetchOutcome)
| User (a : Action).

Definition target (e : Event) : option nat :=
  match e with
  | ReaderLoad i _ | ReaderError i | ExtractionSettled i _ => Some i
  | User _ => None
  end.

(** [(event.target?.result as string)?.split(',')[1]]: the base64 payload
    of the data URL, absent when there is no result or no comma. *)
Definition payload (result : option jsstring) : option jsstring :=
  result ≫= (fun dataURL => split comma dataURL !! 1).

(** [reader.onload]: up to the [await]. *)
Definition onload (file : File.t) (result : option jsstring) : Task :=
  let base64ImageData := payload result in
  if truthy base64ImageData then Extracting (or_empty base64ImageData)
  else Settled (Fulfilled (errorRecord file)).

(** [reader.onerror] *)
Definition onerror (file : File.t) : Task :=
  Settled (Fulfilled (errorRecord file)).

(** [reader.onload]: from the [await] on, with its [try] and [catch]. *)
Definition onextracted `{JSON} (file : File.t) (base64ImageData : jsstring)
    (answer : FetchOutcome) : Task :=
  match extractInvoiceData base64ImageData answer with
  | inl data => Settled (Fulfilled (withFileName file data))
  | inr err => Settled (Fulfilled (errorRecord file))
  end.

(** An event delivered to the task of [file]; [None] when the browser cannot
    deliver it there (a reader fires one of [load] and [error], once; a
    network call settles once, after it was made). *)
Definition task_step `{JSON} (file : File.t) (t : Task) (e : Event) : option Task :=
  match t, e with
  | Reading, ReaderLoad _ result => Some (onload file result)
  | Reading, ReaderError _ => Some (onerror file)
  | Extracting base64ImageData, ExtractionSettled _ answer =>
      Some (onextracted file base64ImageData answer)
  | _, _ => None
  end.

(** [Promise.all]: rejected as soon as one promise is, fulfilled with the
    values in the order of the promises when all are, pending otherwise. *)
Inductive Joint : Type :=
| JointPending
| JointFulfilled (results : list JSObject)
| JointRejected (reason : Exn).

Fixpoint Promise_all (promises : list Task) : Joint :=
  match promises with
  | [] => JointFulfilled []
  | p :: rest =>
      match p, Promise_all rest with
      | Settled (Rejected reason), _ => JointRejected reason
      | _, JointRejected reason => JointRejected reason
      | Settled (Fulfilled value), JointFulfilled values =>
          JointFulfilled (value :: values)
      | _, _ => JointPending
      end
  end.

(** Where [processInvoices] stands after its [await]: still waiting, through
    the [try] block, or through the [catch] block. *)
Inductive Phase : Type := Awaiting | Surfaced | Crashed.

(** A run of [processInvoices]: the React state with the results as they
    are stored, the files and promises the call closed over, and the
    phase. *)
Record Run : Type := mkRun {
  state : StateOf JSObject;
  files : list File.t;
  processingPromises : list Task;
  phase : Phase }.

(** [resetUI]; the results it leaves are empty, whatever they were. *)
Definition resetUI {R R'} (st : StateOf R) : StateOf R' :=
  setIsLoading true (setExtractedData [] (setError [] st)).

(** [sanitizeInvoiceNumber(r.invoiceNumber)] as the call goes at run time,
    where the argument is whatever the record holds: [raw || ''] is [''] for
    a falsy value, a string goes through [replace], and any other value has
    no method [replace], so that the call throws a [TypeError] ([None]). *)
Definition sanitizeInvoiceNumber_call (raw : option json) : option jsstring :=
  match raw with
  | Some (JString s) => Some (sanitizeInvoiceNumber (Some s))
  | _ => if truthy_value raw then None else Some (sanitizeInvoiceNumber None)
  end.

(** [{ ...r, invoiceNumber: sanitizeInvoiceNumber(r.invoiceNumber) }];
    [None] when the call throws. *)
Definition sanitizedRecord (r : JSObject) : option JSObject :=
  digitsOnly ← sanitizeInvoiceNumber_call (get (lit "invoiceNumber") r);
  Some (put (lit "invoiceNumber") (JString digitsOnly) r).

(** [results.map(r => ...)]; [None] when the call throws on a record. *)
Definition sanitizedResults (results : list JSObject) : option (list JSObject) :=
  mapM sanitizedRecord results.

(** [{ ...r, invoiceNumber: sanitizeInvoiceNumber(r.invoiceNumber) }] on a
    record of the declared type, where the call returns. *)
Definition sanitized (r : ExtractedInvoiceData) : ExtractedInvoiceData :=
  {| fileName := fileName r;
     invoiceNumber := sanitizeInvoiceNumber (Some (invoiceNumber r));
     companyNumber := companyNumber r;
     date := date r;
     totalAmount := totalAmount r |}.

Definition criticalMessage : jsstring :=
  lit "A critical error occurred while processing files. Please check the console.".

(** [processInvoices] up to its [await]: the guard, [resetUI], and one
    promise per file with its reader started. *)
Definition processInvoices {R} (st : StateOf R) : StateOf R + Run :=
  if length (selectedFiles st) =? 0 then
    inl (setError (lit "No files selected.") st)
  else
    inr {| state := resetUI st;
           files := selectedFiles st;
           processingPromises := (fun _ => Reading) <$> selectedFiles st;
           phase := Awaiting |}.

(** [processInvoices] from its [await] on: nothing while the joint promise is
    pending. When it is fulfilled the [try] block goes on: the results are
    sanitized and stored, unless the sanitizer throws on one of them, which
    the [catch] block takes like a rejection of the joint promise. Then
    [finally]. *)
Definition resume (r : Run) : Run :=
  match phase r with
  | Awaiting =>
      let caught :=
        {| state := setIsLoading false (setError criticalMessage (state r));
           files := files r;
           processingPromises := processingPromises r;
           phase := Crashed |} in
      match Promise_all (processingPromises r) with
      | JointPending => r
      | JointFulfilled results =>
          match sanitizedResults results with
          | Some sanitizedResults =>
              {| state := setIsLoading false (setExtractedData sanitizedResults (state r));
                 files := files r;
                 processingPromises := processingPromises r;
                 phase := Surfaced |}
          | None => caught
          end
      | JointRejected _ => caught
      end
  | _ => r
  end.

(** One event. An event of a file acts on the promise at its position and
    lets the awaiting function resume; the user acts on the React state. *)
Definition step `{JSON} (r : Run) (e : Event) : option Run :=
  match target e with
  | None =>
      match e with
      | User a =>
          Some {| state := act (state r) a; files := files r;
                  processingPromises := processingPromises r; phase := phase r |}
      | _ => None
      end
  | Some i =>
      file ← files r !! i;
      t ← processingPromises r !! i;
      t' ← task_step file t e;
      Some (resume {| state := state r; files := files r;
                      processingPromises := <[i := t']> (processingPromises r);
                      phase := phase r |})
  end.

Fixpoint exec `{JSON} (r : Run) (events : list Event) : option Run :=
  match events with
  | [] => Some r
  | e :: rest => r' ← step r e; exec r' rest
  end.

(** The React state of a run at the type the component declares for it: the
    stored records as [ExtractedInvoiceData], when every one of them is of
    that type. Where one is not, the declared type says nothing of the
    results, and this state has none. *)
Definition ui (r : Run) : State :=
  {| selectedFiles := selectedFiles (state r);
     extractedData := default [] (mapM typed (extractedData (state r)));
     isLoading := isLoading (state r);
     error := error (state r) |}.

(** The events of the file at position [i], in the order of their delivery. *)
Definition events_of (i : nat) (events : list Event) : list Event :=
  List.filter (fun e => bool_decide (target e = Some i)) events.

Definition is_settled (t : Task) : bool :=
  match t with Settled _ => true | _ => false end.

Definition all_settled (r : Run) : bool :=
  forallb is_settled (processingPromises r).

(** The events of one file delivered to its task, one after the other. *)
Fixpoint task_exec `{JSON} (file : File.t) (t : Task) (events : list Event)
    : option Task :=
  match events with
  | [] => Some t
  | e :: rest => t' ← task_step file t e; task_exec file t' rest
  end.

(** The value of a fulfilled promise. *)
Definition value (t : Task) : option JSObject :=
  match t with
  | Settled (Fulfilled v) => Some v
  | _ => None
  end.

Definition is_rejected (t : Task) : bool :=
  match t with
  | Settled (Rejected _) => true
  | _ => false
  end.

(** The ways the processing of the file at position [i] fails, as the events
    of that file: the read fails; the read gives no payload; the extraction
    called with the payload throws. *)
Inductive Failure `{JSON} (i : nat) : list Event -> Prop :=
| read_fails :
    Failure i [ReaderError i]
| payload_absent result :
    truthy (payload result) = false ->
    Failure i [ReaderLoad i result]
| extraction_throws result answer exn :
    truthy (payload result) = true ->
    extractInvoiceData (or_empty (payload result)) answer = inr exn ->
    Failure i [ReaderLoad i result; ExtractionSettled i answer].

(** What the extraction of a file returned, given the events of that file:
    the file was read with a payload and [extractInvoiceData], called with
    it, returned. *)
Definition returned `{JSON} (events : list Event) : option json :=
  match events with
  | [ReaderLoad _ result; ExtractionSettled _ answer] =>
      if truthy (payload result) then
        match extractInvoiceData (or_empty (payload result)) answer with
        | inl data => Some data
        | inr _ => None
        end
      else None
  | _ => None
  end.

(** The value with which the promise of a file is fulfilled, given the
    events of that file. *)
Definition outcome `{JSON} (file : File.t) (events : list Event) : JSObject :=
  match returned events with
  | Some data => withFileName file data
  | None => errorRecord file
  end.

(** The values of the promises of a batch after a delivery, when all are
    fulfilled. *)
Definition outcomes `{JSON} (batch : list File.t) (events : list Event)
    : list JSObject :=
  imap (fun i file => outcome file (events_of i events)) batch.

(** An event that settles a pending task at once: the reader fails, or the
    network call does. *)
Definition settle_now (i : nat) (t : Task) : Event :=
  match t with
  | Extracting _ => ExtractionSettled i NetworkFailure
  | _ => ReaderError i
  end.

(** The events still to come for a task: at most two. *)
Definition work (t : Task) : nat :=
  match t with
  | Reading => 2
  | Extracting _ => 1
  | Settled _ => 0
  end.

Definition total_work (promises : list Task) : nat :=
  sum_list (work <$> promises).

Definition is_file_event (e : Event) : bool :=
  match target e with Some _ => true | None => false end.

(** What holds of a run at every moment: one promise per file, none
    rejected; the batch error is shown in the [catch] phase only; the
    results are empty while the function awaits, the sanitized values of the
    promises after the [try] block, and empty after the [catch] block, which
    is entered when the sanitizer throws on a value. *)
Record Invariant (r : Run) : Prop := mkInvariant {
  inv_length : length (processingPromises r) = length (files r);
  inv_not_rejected :
    forallb (fun t => negb (is_rejected t)) (processingPromises r) = true;
  inv_error : phase r <> Crashed -> error (state r) <> criticalMessage;
  inv_phase :
    match phase r with
    | Awaiting =>
        all_settled r = false
        /\ extractedData (state r) = [] /\ isLoading (state r) = true
    | Surfaced =>
        all_settled r = true
        /\ sanitizedResults (omap value (processingPromises r))
           = Some (extractedData (state r))
        /\ isLoading (state r) = false
    | Crashed =>
        all_settled r = true
        /\ sanitizedResults (omap value (processingPromises r)) = None
        /\ extractedData (state r) = [] /\ isLoading (state r) = false
    end }.

(** ** Export serializer: [downloadExcel] *)

(** [SheetDataRow = Record<string, string>]: an object literal, its keys in
    the order they were written. *)
Definition SheetDataRow : Type := list (jsstring * jsstring).

(** [r[key]] *)
Fixpoint property (key : jsstring) (r : SheetDataRow) : option jsstring :=
  match r with
  | [] => None
  | (k, v) :: rest => if str_eqb k key then Some v else property key rest
  end.

Record ColInfo : Type := mkColInfo { wch : nat }.

(** A worksheet: the header row, the data rows (a cell is absent where the
    object had no such key) and the ["!cols"] property. *)
Record Worksheet : Type := mkWorksheet {
  header : list jsstring;
  rows : list (list (option jsstring));
  cols : option (list ColInfo) }.

(** Worksheets and workbooks are objects: the program holds references
    (positions in the store), and a workbook holds references to its
    sheets. *)
Definition ref : Type := nat.
Definition Workbook : Type := list (jsstring * ref).

(** A written file: its name and its sheets as they were when written. *)
Definition Download : Type := (jsstring * list (jsstring * Worksheet))%type.

(** The part of the browser that [downloadExcel] works on. *)
Record Browser : Type := mkBrowser {
  XLSX_defined : bool          (* [typeof XLSX !== 'undefined'] *);
  worksheets : list Worksheet;
  workbooks : list Workbook;
  downloads : list Download }.

(** Code with effects on the browser. *)
Definition Effect (A : Type) : Type := Browser -> A * Browser.

Definition pure {A} (a : A) : Effect A := fun b => (a, b).

Definition bind {A B} (m : Effect A) (k : A -> Effect B) : Effect B :=
  fun b => let (a, b') := m b in k a b'.

#[export] Instance Effect_ret : MRet Effect := @pure.
#[export] Instance Effect_bind : MBind Effect := fun A B k m => bind m k.

Module XLSX.
(** The spreadsheet-writing library is loaded from a script tag and is not
    part of the repository; the component declares its four functions in
    [XLSXType]. *)

(** The keys of the rows, each once, in the order they first occur. *)
Definition add_key (hdr : list jsstring) (kv : jsstring * jsstring) : list jsstring :=
  if existsb (str_eqb (fst kv)) hdr then hdr else hdr ++ [fst kv].

Definition keys (data : list SheetDataRow) : list jsstring :=
  fold_left (fun hdr row => fold_left add_key row hdr) data [].

Definition sheet_of (data : list SheetDataRow) : Worksheet :=
  let hdr := keys data in
  {| header := hdr;
     rows := (fun row => (fun key => property key row) <$> hdr) <$> data;
     cols := None |}.

(** Modelled from the spec: [XLSX.utils.json_to_sheet(data)], the table
    with "one tabular row per record" under a header row of the column
    names; a new worksheet. *)
Definition json_to_sheet (data : list SheetDataRow) : Effect ref := fun b =>
  (length (worksheets b),
   {| XLSX_defined := XLSX_defined b;
      worksheets := worksheets b ++ [sheet_of data];
      workbooks := workbooks b;
      downloads := downloads b |}).

(** Modelled from the spec: [XLSX.utils.book_new()], a new workbook
    without sheets. *)
Definition book_new : Effect ref := fun b =>
  (length (workbooks b),
   {| XLSX_defined := XLSX_defined b;
      worksheets := worksheets b;
      workbooks := workbooks b ++ [[]];
      downloads := downloads b |}).

(** Modelled from the spec: [XLSX.utils.book_append_sheet(workbook,
    worksheet, name)], the sheet under its name; the workbook keeps the
    reference, not a copy. *)
Definition book_append_sheet (workbook worksheet : ref) (name : jsstring)
  : Effect unit := fun b =>
  (tt,
   {| XLSX_defined := XLSX_defined b;
      worksheets := worksheets b;
      workbooks :=
        match workbooks b !! workbook with
        | Some sheets => <[workbook := sheets ++ [(name, worksheet)]]> (workbooks b)
        | None => workbooks b
        end;
      downloads := downloads b |}).

(** The sheets of a workbook as the store has them now. *)
Definition contents (b : Browser) (workbook : ref) : list (jsstring * Worksheet) :=
  omap (fun '(name, worksheet) => (fun ws => (name, ws)) <$> worksheets b !! worksheet)
       (default [] (workbooks b !! workbook)).

(** Modelled from the spec: [XLSX.writeFile(workbook, filename)], the
    "single spreadsheet file" written under the given name. *)
Definition writeFile (workbook : ref) (filename : jsstring) : Effect unit := fun b =>
  (tt,
   {| XLSX_defined := XLSX_defined b;
      worksheets := worksheets b;
      workbooks := workbooks b;
      downloads := downloads b ++ [(filename, contents b workbook)] |}).
End XLSX.

(** [typeof XLSX === 'undefined'] *)
Definition typeof_XLSX_undefined : Effect bool := fun b => (negb (XLSX_defined b), b).

(** [worksheet["!cols"] = v] *)
Definition set_cols (worksheet : ref) (v : list ColInfo) : Effect unit := fun b =>
  (tt,
   {| XLSX_defined := XLSX_defined b;
      worksheets :=
        match worksheets b !! worksheet with
        | Some ws =>
            <[worksheet := {| header := header ws; rows := rows ws; cols := Some v |}]>
              (worksheets b)
        | None => worksheets b
        end;
      workbooks := workbooks b;
      downloads := downloads b |}).

Definition loadingMessage : jsstring :=
  lit "Excel library is still loading. Please try again in a moment.".

Definition noDataMessage : jsstring := lit "No data to export.".

Definition sheetRow (item : ExtractedInvoiceData) : SheetDataRow :=
  [ (lit "Invoice Number", invoiceNumber item);
    (lit "Company Number", companyNumber item);
    (lit "Date", date item);
    (lit "Total Amount", totalAmount item);
    (lit "Source File", fileName item) ].

(** [downloadExcel]: the new React state, with its effects on the browser. *)
Definition downloadExcel (st : State) : Effect State :=
  undefined ← typeof_XLSX_undefined;
  if undefined : bool then mret (setError loadingMessage st)
  else if length (extractedData st) =? 0 then mret (setError noDataMessage st)
  else
    let sheetData := sheetRow <$> extractedData st in
    worksheet ← XLSX.json_to_sheet sheetData;
    workbook ← XLSX.book_new;
    XLSX.book_append_sheet workbook worksheet (lit "Invoices");;
    let max_width :=
      fold_left
        (fun w r => Nat.max w (length (or_empty (property (lit "Source File") r))))
        sheetData 10 in
    set_cols worksheet
      [ {| wch := 20 |}; {| wch := 20 |}; {| wch := 15 |}; {| wch := 15 |};
        {| wch := max_width |} ];;
    XLSX.writeFile workbook (lit "InvoiceData.xlsx");;
    mret st.

(** ** Sample data *)

Definition file_a : File.t := File.mk (lit "a.jpg") 1024.
Definition file_b : File.t := File.mk (lit "b.jpg") 2048.

(** Ten files [scan0.png] to [scan9.png]. *)
Definition ten_files : list File.t :=
  (fun n => File.mk (lit "scan" ++ number_to_string n ++ lit ".png") 512) <$> seq 0 10.

Definition nine_selected : State := handleFileSelection (Some (take 9 ten_files)) initialState.
Definition ten_selected : State := handleFileSelection (Some ten_files) initialState.

(** The object of Example A of the prompt. *)
Definition example_A : json :=
  JObject [ (lit "invoiceNumber", JString (lit "INV-1001"));
            (lit "companyNumber", JString (lit "ABN 12 345 678 901"));
            (lit "totalAmount", JString (lit "$1,234.50"));
            (lit "date", JString (lit "12/03/2024")) ].

(** A [JSON.parse] that reads every text as Example A of the prompt. *)
Definition parse_example_A : JSON := fun _ => Some example_A.

Definition two_selected : State :=
  handleFileSelection (Some [file_a; file_b]) initialState.

(** The run that [processInvoices] starts on [two_selected]. *)
Definition two_run : Run :=
  {| state := resetUI two_selected;
     files := [file_a; file_b];
     processingPromises := [Reading; Reading];
     phase := Awaiting |}.

Definition dataURL : option jsstring := Some (lit "data:image/jpeg;base64,/9j/4AAQSkZJRg").

Definition response_A : Response :=
  {| status := 200;
     response_text := lit "(envelope)";
     response_json :=
       Some {| candidates :=
                 Some [ {| content :=
                             Some {| parts := Some [ {| text := Some (lit "(Example A)") |} ] |} |} ] |} |}.

(** The route with a model endpoint that answers 429. *)
Definition env_429 : Route.Env :=
  {| Route.request :=
       Some {| Route.base64ImageData := Some (lit "/9j/4AAQSkZJRg");
               Route.prompt := Some (lit "You are analyzing an invoice image.") |};
     Route.GEMINI_API_KEY := Some (lit "key");
     Route.upstream :=
       Some {| Route.upstream_status := 429; Route.upstream_json := None |} |}.

Definition response_429 : Response :=
  served (Route.POST env_429) (lit "(upstream error)").

(** File 0 is read and extracted; file 1 is read and its extraction is
    answered 429, before the extraction of file 0 returns. *)
Definition delivery_429 : list Event :=
  [ ReaderLoad 1 dataURL; ReaderLoad 0 dataURL;
    ExtractionSettled 1 (Responded response_429);
    ExtractionSettled 0 (Responded response_A) ].

(** The read of file 1 fails, then file 0 is read and extracted. *)
Definition delivery_read_error : list Event :=
  [ ReaderError 1; ReaderLoad 0 dataURL; ExtractionSettled 0 (Responded response_A) ].

(** The run after a delivery, when every event of it could be delivered. *)
Definition after `{JSON} (r0 : Run) (events : list Event) : Run :=
  default r0 (exec r0 events).

Definition browser_ready : Browser :=
  {| XLSX_defined := true; worksheets := []; workbooks := []; downloads := [] |}.

(** The state that shows the results of [delivery_read_error]. *)
Definition results_shown : State :=
  ui (after (H := parse_example_A) two_run delivery_read_error).

(** ** The export in the words of the specification *)

(** "five named columns (Invoice Number, Company Number, Date, Total Amount,
    Source File) in that column order" *)
Definition columnNames : list jsstring :=
  [ lit "Invoice Number"; lit "Company Number"; lit "Date"; lit "Total Amount";
    lit "Source File" ].

(** "one tabular row per record" *)
Definition dataRow (item : ExtractedInvoiceData) : list (option jsstring) :=
  [ Some (invoiceNumber item); Some (companyNumber item); Some (date item);
    Some (totalAmount item); Some (fileName item) ].

(** "the longest source-file name" *)
Definition longestSourceFile (data : list ExtractedInvoiceData) : nat :=
  max_list ((fun item => length (fileName item)) <$> data).

(** "minimum width floor" *)
Definition WIDTH_FLOOR : nat := 10.

(** ** The page: what [Home] returns for a state *)

(** [v || 'N/A'] in a table cell. *)
Definition or_NA (v : jsstring) : jsstring :=
  match v with
  | [] => lit "N/A"
  | _ :: _ => v
  end.

(** [(file.size / 1024).toFixed(1)]: the size is an integer below [2^53],
    so the quotient is exact, and [toFixed(1)] gives the nearest number of
    tenths, the larger of two that are equally near. *)
Definition tenths_of_KB (size : N) : N := ((10 * size + 512) / 1024)%N.

Definition toFixed1_KB (size : N) : jsstring :=
  number_to_string (N.to_nat (tenths_of_KB size / 10))
  ++ lit "." ++ number_to_string (N.to_nat (tenths_of_KB size mod 10)).

(** The card of a selected file: its name, its size text and the index its
    remove button passes to [removeFile]. *)
Record FileCard : Type := mkFileCard {
  card_name : jsstring;
  card_size : jsstring;
  card_remove : nat }.

Definition fileCard (index : nat) (file : File.t) : FileCard :=
  {| card_name := File.name file;
     card_size := toFixed1_KB (File.size file) ++ lit " KB";
     card_remove := index |}.

(** A row of the results table: the five cells. *)
Definition tableRow (data : ExtractedInvoiceData) : list jsstring :=
  [ or_NA (fileName data); or_NA (invoiceNumber data); or_NA (companyNumber data);
    or_NA (date data); or_NA (totalAmount data) ].

(** The results section. *)
Record ResultsSection : Type := mkResultsSection {
  downloadDisabled : bool                      (* [extractedData.length === 0] *);
  loaderShown : bool                           (* [isLoading && <Loader />] *);
  resultsTable : option (list (list jsstring)) (* [!isLoading && extractedData.length > 0] *);
  placeholderShown : bool  (* [!isLoading && extractedData.length === 0 && !error] *) }.

(** What the component shows and enables; an absent part is not rendered. *)
Record Page : Type := mkPage {
  errorBanner : option jsstring        (* [error && ...] *);
  chooseDisabled : bool                (* [selectedFiles.length >= 10] *);
  chooseLabel : jsstring;
  caption : jsstring;
  selectedList : option (jsstring * list FileCard) (* [selectedFiles.length > 0 && ...] *);
  processDisabled : bool               (* [selectedFiles.length === 0 || isLoading] *);
  processLabel : jsstring;
  resultsSection : option ResultsSection
    (* [(isLoading || extractedData.length > 0 || error) && ...] *) }.

Definition bullet : char16 := 8226%N.

Definition Home (st : State) : Page :=
  let n := length (selectedFiles st) in
  {| errorBanner := if truthy (Some (error st)) then Some (error st) else None;
     chooseDisabled := 10 <=? n;
     chooseLabel :=
       if 10 <=? n then lit "Maximum Files Reached" else lit "Choose Invoice Images";
     caption :=
       if 0 <? n then number_to_string n ++ lit "/10 files selected."
       else lit "Supports PNG, JPG, JPEG, and other image formats "
            ++ [bullet] ++ lit " Maximum 10 files";
     selectedList :=
       if 0 <? n then
         Some (lit "Selected Files (" ++ number_to_string n ++ lit ")",
               imap fileCard (selectedFiles st))
       else None;
     processDisabled := (n =? 0) || isLoading st;
     processLabel :=
       if isLoading st then lit "Processing..." else lit "Extract Data from Invoices";
     resultsSection :=
       if isLoading st || (0 <? length (extractedData st)) || truthy (Some (error st))
       then
         Some {| downloadDisabled := length (extractedData st) =? 0;
                 loaderShown := isLoading st;
                 resultsTable :=
                   if negb (isLoading st) && (0 <? length (extractedData st))
                   then Some (tableRow <$> extractedData st) else None;
                 placeholderShown :=
                   negb (isLoading st) && (length (extractedData st) =? 0)
                   && negb (truthy (Some (error st))) |}
       else None |}.

(** ** The envelope in the words of the specification *)

(** "the first structured-text candidate": the text of the first content
    part of the first candidate, when all of these are there. *)
Definition first_text (result : Envelope) : option jsstring :=
  match candidates result with
  | Some ({| content := Some {| parts := Some ({| text := Some txt |} :: _) |} |} :: _) =>
      Some txt
  | _ => None
  end.

(** The route has all it needs and the model endpoint answers a success
    with the JSON body [result]. *)
Definition accepted (env : Route.Env) (result : Envelope) : Prop :=
  exists body up,
    Route.request env = Some body
    /\ truthy (Route.base64ImageData body) = true
    /\ truthy (Route.prompt body) = true
    /\ truthy (Route.GEMINI_API_KEY env) = true
    /\ Route.upstream env = Some up
    /\ ok_status (Route.upstream_status up) = true
    /\ Route.upstream_json up = Some result.

(** The sheet that an export of [data] holds, in the words of the
    specification: the header, a row per record, and the widths. *)
Definition exportSheet (data : list ExtractedInvoiceData) : Worksheet :=
  {| header := columnNames;
     rows := dataRow <$> data;
     cols := Some [ {| wch := 20 |}; {| wch := 20 |}; {| wch := 15 |}; {| wch := 15 |};
                    {| wch := Nat.max WIDTH_FLOOR (longestSourceFile data) |} ] |}.

(** ** Runs and the user *)

(** What the user did during a delivery. *)
Definition user_actions (events : list Event) : list Action :=
  omap (fun e => match e with User a => Some a | _ => None end) events.

(** The batch of a choice has no two files with the same name and size. *)
Definition distinct_choice (a : Action) : Prop :=
  match a with
  | Choose (Some batch) => distinct_files batch
  | _ => True
  end.

(** The payload that a task has sent to the gateway, if it has. *)
Definition sent_payload (t : Task) : option jsstring :=
  match t with
  | Extracting base64ImageData => Some base64ImageData
  | _ => None
  end.

(** ** The results in the words of the specification *)

(** "the output record set has exactly k entries, in input order": when
    every promise of the run is settled, there is a record for every file,
    and the record at a position carries the name of the file at that
    position. *)
Definition results_as_stated `{JSON} (st : State) (events : list Event) : Prop :=
  forall r0 r,
    processInvoices st = inr r0 ->
    exec r0 events = Some r ->
    all_settled r = true ->
    length (extractedData (state r)) = length (selectedFiles st)
    /\ forall i file,
         selectedFiles st !! i = Some file ->
         exists record,
           extractedData (state r) !! i = Some record
           /\ get (lit "fileName") record = Some (JString (File.name file)).

(** The answer of the model for a file leaves the name of the file alone
    and has an invoice number that the sanitizer takes: the parsed value has
    no [fileName] of its own, and its [invoiceNumber] is a string, or absent
    or falsy. An answer of the declared type is of this kind. *)
Definition plain (data : json) : Prop :=
  copied (lit "fileName") data = None
  /\ is_Some (sanitizeInvoiceNumber_call (copied (lit "invoiceNumber") data)).

(** ** More sample data *)

Definition quote : char16 := 34%N.

(** A string literal of a JSON text. *)
Definition quoted (s : string) : jsstring := quote :: lit s ++ [quote].

(** The text of an object whose members are given as texts. *)
Fixpoint members_text (members : list (string * jsstring)) : jsstring :=
  match members with
  | [] => []
  | [(k, v)] => quoted k ++ lit ":" ++ v
  | (k, v) :: rest => quoted k ++ lit ":" ++ v ++ lit "," ++ members_text rest
  end.

Definition object_text (members : list (string * jsstring)) : jsstring :=
  lit "{" ++ members_text members ++ lit "}".

(** Example A of the prompt, as a text. *)
Definition text_A : jsstring :=
  object_text [ ("invoiceNumber", quoted "INV-1001");
                ("companyNumber", quoted "ABN 12 345 678 901");
                ("totalAmount", quoted "$1,234.50");
                ("date", quoted "12/03/2024") ].

(** An answer with the invoice number as a number, not as a string. *)
Definition text_number : jsstring :=
  object_text [ ("invoiceNumber", lit "1001");
                ("companyNumber", quoted "N/A");
                ("totalAmount", quoted "N/A");
                ("date", quoted "N/A") ].

Definition answer_number : json :=
  JObject [ (lit "invoiceNumber", JNumber (Double 1001 0));
            (lit "companyNumber", JString (lit "N/A"));
            (lit "totalAmount", JString (lit "N/A"));
            (lit "date", JString (lit "N/A")) ].

(** An answer with a fifth key, [fileName]. *)
Definition text_fileName : jsstring :=
  object_text [ ("fileName", quoted "other.jpg");
                ("invoiceNumber", quoted "INV-1001");
                ("companyNumber", quoted "N/A");
                ("totalAmount", quoted "N/A");
                ("date", quoted "N/A") ].

Definition answer_fileName : json :=
  JObject [ (lit "fileName", JString (lit "other.jpg"));
            (lit "invoiceNumber", JString (lit "INV-1001"));
            (lit "companyNumber", JString (lit "N/A"));
            (lit "totalAmount", JString (lit "N/A"));
            (lit "date", JString (lit "N/A")) ].

(** [JSON.parse] on these three texts; on every other text this one
    throws. *)
Definition parse_texts : JSON := fun text =>
  if str_eqb text text_A then Some example_A
  else if str_eqb text text_number then Some answer_number
  else if str_eqb text text_fileName then Some answer_fileName
  else None.

(** A success of the route whose first candidate has the given text. *)
Definition response_with (txt : jsstring) : Response :=
  {| status := 200;
     response_text := lit "(envelope)";
     response_json :=
       Some {| candidates :=
                 Some [ {| content :=
                             Some {| parts := Some [ {| text := Some txt |} ] |} |} ] |} |}.

Definition one_selected : State := handleFileSelection (Some [file_a]) initialState.

(** The run that [processInvoices] starts on [one_selected]. *)
Definition one_run : Run :=
  {| state := resetUI one_selected;
     files := [file_a];
     processingPromises := [Reading];
     phase := Awaiting |}.

(** The one file is read and its extraction returns the given text. *)
Definition delivery_with (txt : jsstring) : list Event :=
  [ ReaderLoad 0 dataURL; ExtractionSettled 0 (Responded (response_with txt)) ].

Definition stale_error : State := setError (lit "No data to export.") two_selected.

Definition env_no_key : Route.Env :=
  {| Route.request := Route.request env_429;
     Route.GEMINI_API_KEY := None;
     Route.upstream := Route.upstream env_429 |}.

(** The model endpoint answers 200 with the envelope of [response_A]. *)
Definition env_A : Route.Env :=
  {| Route.request := Route.request env_429;
     Route.GEMINI_API_KEY := Route.GEMINI_API_KEY env_429;
     Route.upstream :=
       Some {| Route.upstream_status := 200;
               Route.upstream_json := response_json response_A |} |}.

(** File 0 is read, the user removes file 1 from the selection, the read of
    file 1 fails: the run awaits the extraction of file 0. *)
Definition delivery_busy : list Event :=
  [ ReaderLoad 0 dataURL; User (Remove 1); ReaderError 1 ].

(** * Properties *)

(** ** Sanitizer *)

Lemma filter_drop_nondigit_prefix s :
  List.filter is_digit (drop (nondigit_prefix s) s) = List.filter is_digit s.
Proof.
  induction s as [|c t IH]; simpl; [done|].
  destruct (is_digit c) eqn:Hc; simpl; [by rewrite Hc|done].
Qed.

Lemma re_nondigits_cons c t :
  re_nondigits (c :: t) =
    if is_digit c then None else Some (S (nondigit_prefix t)).
Proof. unfold re_nondigits. simpl. by destruct (is_digit c). Qed.

Lemma replace_nondigits_filter s :
  replace_global re_nondigits [] s = digit_subsequence s.
Proof.
  unfold digit_subsequence.
  remember (length s) as n eqn:Hn.
  revert s Hn. induction (lt_wf n) as [n _ IH]. intros s ->.
  destruct s as [|c t]; simp replace_global; [done|].
  rewrite re_nondigits_cons. simpl.
  destruct (is_digit c) eqn:Hc; simpl.
  - f_equal. eapply IH; [|done]. simpl. lia.
  - rewrite <- (filter_drop_nondigit_prefix t).
    eapply IH; [|done]. rewrite length_drop. simpl. lia.
Qed.

Lemma digit_subsequence_digits s : digits_only (digit_subsequence s) = true.
Proof.
  unfold digits_only, digit_subsequence.
  apply forallb_forall. intros c Hc. by apply filter_In in Hc as [_ ?].
Qed.

(** C4. For every string, [sanitizeInvoiceNumber] returns its digit
    subsequence (the decimal digits in their original order); for an absent
    and for an empty input it returns the empty string. The function is
    defined on every input. *)
Theorem sanitizeInvoiceNumber_digit_subsequence :
  (forall s : jsstring, sanitizeInvoiceNumber (Some s) = digit_subsequence s)
  /\ sanitizeInvoiceNumber None = []
  /\ sanitizeInvoiceNumber (Some []) = [].
Proof.
  split; [|split].
  - intros s. unfold sanitizeInvoiceNumber. simpl. apply replace_nondigits_filter.
  - reflexivity.
  - reflexivity.
Qed.

Lemma sanitizeInvoiceNumber_digits_only raw :
  digits_only (sanitizeInvoiceNumber raw) = true.
Proof.
  unfold sanitizeInvoiceNumber. rewrite replace_nondigits_filter.
  apply digit_subsequence_digits.
Qed.

(** ** Selection *)

(** Closed decidable facts are settled by evaluation. *)
Ltac by_evaluation :=
  lazymatch goal with
  | |- ~ ?P => apply (bool_decide_eq_false_1 P); vm_compute; reflexivity
  | |- ?P => apply (bool_decide_eq_true_1 P); vm_compute; reflexivity
  end.

Lemma File_same_key a b : File.same a b = true <-> File.key a = File.key b.
Proof.
  unfold File.same, File.key, str_eqb. destruct a as [n1 s1], b as [n2 s2]. simpl.
  rewrite andb_true_iff, bool_decide_eq_true, N.eqb_eq. split.
  - by intros [-> ->].
  - intros [= -> ->]. done.
Qed.

Lemma existsb_same_key selected f :
  existsb (fun existingFile => File.same existingFile f) selected = true
  <-> File.key f ∈ File.key <$> selected.
Proof.
  rewrite existsb_exists, list_elem_of_fmap. split.
  - intros (x & Hx & Hs). exists x. apply File_same_key in Hs.
    split; [done|]. by apply list_elem_of_In.
  - intros (x & Hk & Hx). exists x. split; [by apply list_elem_of_In|].
    by apply File_same_key.
Qed.

Lemma elem_of_filesToAdd selected newFiles f :
  f ∈ filesToAdd selected newFiles <-> f ∈ newFiles /\ new_file selected f.
Proof.
  unfold filesToAdd, new_file.
  rewrite list_elem_of_In, filter_In, <- list_elem_of_In, negb_true_iff.
  rewrite <- existsb_same_key.
  destruct (existsb _ selected); split; intros [? ?]; split; try done.
Qed.

Lemma filesToAdd_length selected newFiles :
  length (filesToAdd selected newFiles) <= length newFiles.
Proof. apply filter_length_le. Qed.

Lemma remove_index_length {A} i (l : list A) :
  length (remove_index i l) <= length l.
Proof.
  revert i. induction l as [|x t IH]; intros [|i]; simpl; try lia.
  specialize (IH i). lia.
Qed.

Lemma handleFileSelection_within_cap {R} files (st : StateOf R) :
  length (selectedFiles st) <= MAX_FILES ->
  length (selectedFiles (handleFileSelection files st)) <= MAX_FILES.
Proof.
  intros Hst. unfold handleFileSelection.
  destruct files as [[|f fs]|]; try done.
  destruct (MAX_FILES <? _) eqn:Hcap; [done|].
  apply Nat.ltb_ge in Hcap.
  destruct (0 <? _); [|done].
  cbn [selectedFiles setError setSelectedFiles]. rewrite length_app.
  pose proof (filesToAdd_length (selectedFiles st) (f :: fs)). lia.
Qed.

(** The cap is an invariant of the selection: whatever the user chooses and
    removes, at most ten files are selected. *)
Lemma selection_within_cap actions :
  length (selectedFiles (run_actions initialState actions)) <= MAX_FILES.
Proof.
  unfold run_actions.
  induction actions as [|a actions IH] using rev_ind; simpl.
  - unfold MAX_FILES. lia.
  - rewrite foldl_snoc. destruct a as [files|i]; simpl.
    + by apply handleFileSelection_within_cap.
    + etrans; [apply remove_index_length|done].
Qed.

Lemma capMessage_nonempty added current : capMessage added current <> [].
Proof. unfold capMessage. simpl. discriminate. Qed.

Lemma handleFileSelection_rejects {R} chosen (st : StateOf R) :
  chosen <> [] ->
  MAX_FILES < length (selectedFiles st) + length chosen ->
  handleFileSelection (Some chosen) st
  = setError (capMessage (length chosen) (length (selectedFiles st))) st.
Proof.
  intros Hne Hcap. unfold handleFileSelection.
  destruct chosen as [|f fs]; [done|].
  apply Nat.ltb_lt in Hcap. by rewrite Hcap.
Qed.

(** C5. In a state with [n] files selected (at most ten, as in every state
    of the selection), choosing [m] files with [n + m > 10] reports the
    selection error and leaves the selection as it was: nothing is added. *)
Theorem handleFileSelection_over_cap (st : State) (chosen : list File.t) :
  length (selectedFiles st) <= MAX_FILES ->
  MAX_FILES < length (selectedFiles st) + length chosen ->
  let st' := handleFileSelection (Some chosen) st in
  selectedFiles st' = selectedFiles st
  /\ error st' = capMessage (length chosen) (length (selectedFiles st))
  /\ error st' <> [].
Proof.
  intros Hst Hcap st'. subst st'.
  rewrite handleFileSelection_rejects; [|destruct chosen; [simpl in *; lia|done]|done].
  simpl. split_and!; [done|done|apply capMessage_nonempty].
Qed.

Lemma handleFileSelection_over_cap_witness :
  length (selectedFiles nine_selected) <= MAX_FILES
  /\ MAX_FILES < length (selectedFiles nine_selected) + length [file_a; file_b]
  /\ selectedFiles (handleFileSelection (Some [file_a; file_b]) nine_selected)
     = selectedFiles nine_selected
  /\ error (handleFileSelection (Some [file_a; file_b]) nine_selected) <> [].
Proof.
  assert (H1 : length (selectedFiles nine_selected) <= MAX_FILES)
    by (vm_compute; lia).
  assert (H2 : MAX_FILES < length (selectedFiles nine_selected) + length [file_a; file_b])
    by (vm_compute; lia).
  split; [exact H1|]. split; [exact H2|].
  pose proof (handleFileSelection_over_cap nine_selected [file_a; file_b] H1 H2) as H.
  simpl in H. split; [apply H|apply H].
Defined.

(** C10. The cap is checked on the number of chosen files, before
    duplicates are looked for: a non-empty choice with [n + m > 10] is
    rejected with the cap error and changes nothing else, whichever of the
    chosen files are already selected, and so also when the files that
    would have been added fit within ten. *)
Theorem cap_checked_before_deduplication (st : State) (chosen : list File.t) :
  chosen <> [] ->
  MAX_FILES < length (selectedFiles st) + length chosen ->
  handleFileSelection (Some chosen) st
  = setError (capMessage (length chosen) (length (selectedFiles st))) st.
Proof.
  intros Hne Hcap. unfold handleFileSelection.
  destruct chosen as [|f fs]; [done|].
  apply Nat.ltb_lt in Hcap. rewrite Hcap. reflexivity.
Qed.

Lemma cap_checked_before_deduplication_witness :
  take 2 ten_files <> []
  /\ MAX_FILES < length (selectedFiles nine_selected) + length (take 2 ten_files)
  /\ length (selectedFiles nine_selected)
     + length (filesToAdd (selectedFiles nine_selected) (take 2 ten_files))
     <= MAX_FILES
  /\ handleFileSelection (Some (take 2 ten_files)) nine_selected
     = setError (capMessage 2 9) nine_selected.
Proof.
  assert (H1 : take 2 ten_files <> []) by (vm_compute; discriminate).
  assert (H2 : MAX_FILES < length (selectedFiles nine_selected) + length (take 2 ten_files))
    by (vm_compute; lia).
  split; [exact H1|]. split; [exact H2|]. split; [vm_compute; lia|].
  exact (cap_checked_before_deduplication nine_selected (take 2 ten_files) H1 H2).
Defined.

Lemma handleFileSelection_selected {R} chosen (st : StateOf R) :
  selectedFiles (handleFileSelection (Some chosen) st)
  = if MAX_FILES <? length (selectedFiles st) + length chosen
    then selectedFiles st
    else selectedFiles st ++ filesToAdd (selectedFiles st) chosen.
Proof.
  unfold handleFileSelection. destruct chosen as [|f fs].
  - cbn [filesToAdd List.filter]. rewrite app_nil_r. by destruct (_ <? _).
  - destruct (MAX_FILES <? _); [done|].
    destruct (filesToAdd (selectedFiles st) (f :: fs)) as [|g gs] eqn:Hadd.
    + cbn [length]. rewrite Nat.ltb_irrefl. by rewrite app_nil_r.
    + done.
Qed.

Lemma NoDup_fmap_filter {A B} (f : A -> B) (p : A -> bool) (l : list A) :
  NoDup (f <$> l) -> NoDup (f <$> List.filter p l).
Proof.
  induction l as [|x l IH]; simpl; [done|].
  rewrite NoDup_cons. intros [Hx Hl].
  destruct (p x); simpl; [|by apply IH].
  apply NoDup_cons. split; [|by apply IH].
  intros Hin. apply Hx. apply list_elem_of_fmap in Hin as (y & -> & Hy).
  apply list_elem_of_fmap. exists y. split; [done|].
  apply list_elem_of_In. apply list_elem_of_In in Hy.
  by apply filter_In in Hy as [? _].
Qed.

Lemma filesToAdd_distinct selected chosen :
  distinct_files selected -> distinct_files chosen ->
  distinct_files (selected ++ filesToAdd selected chosen).
Proof.
  unfold distinct_files. intros Hs Hc. rewrite fmap_app.
  apply NoDup_app. split; [done|]. split.
  - intros k Hk Hin. apply list_elem_of_fmap in Hin as (f & -> & Hf).
    apply elem_of_filesToAdd in Hf as [_ Hnew]. by apply Hnew.
  - by apply NoDup_fmap_filter.
Qed.

(** C6, the statement of the specification fails: two files of one batch
    with the same name and size are both added, and a new file that would
    bring the total above ten is not added. *)
Lemma deduplication_counterexample :
  ~ deduplication_as_stated initialState [file_a; file_a]
  /\ ~ deduplication_as_stated ten_selected [file_a].
Proof.
  split.
  - intros [Hdistinct _].
    assert (Hnil : distinct_files (selectedFiles initialState)) by constructor.
    specialize (Hdistinct Hnil). revert Hdistinct.
    change (~ NoDup [File.key file_a; File.key file_a]).
    rewrite NoDup_cons. intros [Hin _]. apply Hin. by left.
  - intros [_ Hadded].
    assert (Hin : file_a ∈ [file_a]) by by left.
    assert (Hnew : new_file (selectedFiles ten_selected) file_a).
    { unfold new_file, not. by_evaluation. }
    specialize (Hadded file_a Hin Hnew). revert Hadded.
    change (~ file_a ∈ selectedFiles (handleFileSelection (Some [file_a]) ten_selected)).
    by_evaluation.
Qed.

(** C6, as the code has it. Every file that a call adds is a file of the
    chosen batch that matches no selected file by name and size, so a file
    already selected is never duplicated. If neither the selection nor the
    chosen batch holds two files with the same name and size, neither does
    the selection after the call. When the cap check passes, the files added
    are exactly the new files of the chosen batch, in their order, at the
    end of the selection. *)
Theorem handleFileSelection_deduplicates (st : State) (chosen : list File.t) :
  let st' := handleFileSelection (Some chosen) st in
  (exists added,
      selectedFiles st' = selectedFiles st ++ added
      /\ forall f, f ∈ added -> f ∈ chosen /\ new_file (selectedFiles st) f)
  /\ (distinct_files (selectedFiles st) -> distinct_files chosen ->
      distinct_files (selectedFiles st'))
  /\ (length (selectedFiles st) + length chosen <= MAX_FILES ->
      selectedFiles st' = selectedFiles st ++ filesToAdd (selectedFiles st) chosen
      /\ forall f, f ∈ chosen -> new_file (selectedFiles st) f -> f ∈ selectedFiles st').
Proof.
  intros st'. subst st'. rewrite handleFileSelection_selected.
  destruct (MAX_FILES <? _) eqn:Hcap; split_and!.
  - exists []. rewrite app_nil_r. split; [done|]. intros f Hf. by apply elem_of_nil in Hf.
  - done.
  - apply Nat.ltb_lt in Hcap. lia.
  - exists (filesToAdd (selectedFiles st) chosen). split; [done|].
    intros f Hf. by apply elem_of_filesToAdd.
  - apply filesToAdd_distinct.
  - intros _. split; [done|]. intros f Hf Hnew.
    apply elem_of_app. right. by apply elem_of_filesToAdd.
Qed.

Lemma handleFileSelection_deduplicates_witness :
  distinct_files (selectedFiles nine_selected)
  /\ distinct_files [file_a]
  /\ length (selectedFiles nine_selected) + length [file_a] <= MAX_FILES
  /\ distinct_files (selectedFiles (handleFileSelection (Some [file_a]) nine_selected))
  /\ file_a ∈ selectedFiles (handleFileSelection (Some [file_a]) nine_selected).
Proof.
  assert (H1 : distinct_files (selectedFiles nine_selected))
    by (unfold distinct_files; by_evaluation).
  assert (H2 : distinct_files [file_a])
    by (unfold distinct_files; by_evaluation).
  assert (H3 : length (selectedFiles nine_selected) + length [file_a] <= MAX_FILES)
    by (vm_compute; lia).
  split; [exact H1|]. split; [exact H2|]. split; [exact H3|].
  destruct (handleFileSelection_deduplicates nine_selected [file_a]) as (_ & Hd & Ha).
  split; [exact (Hd H1 H2)|].
  destruct (Ha H3) as [_ Hall]. apply Hall.
  - by left.
  - unfold new_file, not. by_evaluation.
Defined.

(** ** Export serializer *)

Lemma loadingMessage_nonempty : loadingMessage <> [].
Proof. discriminate. Qed.

Lemma noDataMessage_nonempty : noDataMessage <> [].
Proof. discriminate. Qed.

(** C7. When the library is not loaded, or the result set is empty,
    [downloadExcel] writes nothing (the browser is as it was, no file among
    the downloads), leaves the result set as it was and sets the error: the
    "still loading" message when the library is not loaded, which is checked
    first, and the "no data" message when the library is loaded and the
    result set is empty. *)
Theorem downloadExcel_precondition_failure (st : State) (b : Browser) :
  XLSX_defined b = false \/ extractedData st = [] ->
  let st' := (downloadExcel st b).1 in
  let b' := (downloadExcel st b).2 in
  b' = b
  /\ downloads b' = downloads b
  /\ extractedData st' = extractedData st
  /\ error st' = (if XLSX_defined b then noDataMessage else loadingMessage)
  /\ error st' <> [].
Proof.
  intros Hpre. unfold downloadExcel, mbind, Effect_bind, bind, typeof_XLSX_undefined.
  destruct (XLSX_defined b) eqn:Hx; simpl.
  - destruct Hpre as [Hpre|Hpre]; [done|]. rewrite Hpre. simpl.
    split_and!; try done.
  - split_and!; try done.
Qed.

Lemma downloadExcel_precondition_failure_witness :
  let b := {| XLSX_defined := true; worksheets := []; workbooks := []; downloads := [] |} in
  (XLSX_defined b = false \/ extractedData initialState = [])
  /\ (downloadExcel initialState b).2 = b
  /\ error (downloadExcel initialState b).1 = noDataMessage.
Proof.
  intros b.
  assert (H : XLSX_defined b = false \/ extractedData initialState = [])
    by (right; reflexivity).
  split; [exact H|].
  destruct (downloadExcel_precondition_failure initialState b H) as (Hb & _ & _ & He & _).
  split; [exact Hb|exact He].
Defined.

Lemma lookup_snoc {A} (l : list A) (x : A) : (l ++ [x]) !! length l = Some x.
Proof. by apply list_lookup_middle. Qed.

Lemma insert_snoc {A} (l : list A) (x y : A) : <[length l := y]> (l ++ [x]) = l ++ [y].
Proof.
  rewrite insert_app_r_alt by lia. by rewrite Nat.sub_diag.
Qed.

Lemma add_key_present hdr kv :
  fst kv ∈ hdr -> XLSX.add_key hdr kv = hdr.
Proof.
  intros Hin. unfold XLSX.add_key.
  destruct (existsb _ hdr) eqn:He; [done|].
  apply not_true_iff_false in He. exfalso. apply He.
  apply existsb_exists. exists (fst kv). split; [by apply list_elem_of_In|].
  unfold str_eqb. by apply bool_decide_eq_true.
Qed.

Lemma keys_sheetRow_again hdr item :
  columnNames ⊆ hdr -> fold_left XLSX.add_key (sheetRow item) hdr = hdr.
Proof.
  intros Hsub. unfold sheetRow. cbn [fold_left].
  repeat (rewrite (add_key_present hdr);
          [|apply Hsub; unfold columnNames; cbn [fst]; repeat constructor]).
  done.
Qed.

Lemma keys_sheetRows data hdr :
  columnNames ⊆ hdr ->
  fold_left (fun h row => fold_left XLSX.add_key row h) (sheetRow <$> data) hdr = hdr.
Proof.
  intros Hsub. induction data as [|item data IH]; [done|].
  rewrite fmap_cons. cbn [fold_left].
  rewrite (keys_sheetRow_again hdr item Hsub). apply IH.
Qed.

Lemma keys_export data :
  data <> [] -> XLSX.keys (sheetRow <$> data) = columnNames.
Proof.
  destruct data as [|item data]; [done|]. intros _.
  unfold XLSX.keys. rewrite fmap_cons. cbn [fold_left].
  change (fold_left XLSX.add_key (sheetRow item) []) with columnNames.
  by apply keys_sheetRows.
Qed.

Lemma max_width_fold data w :
  fold_left
    (fun w r => Nat.max w (length (or_empty (property (lit "Source File") r))))
    (sheetRow <$> data) w
  = Nat.max w (longestSourceFile data).
Proof.
  unfold longestSourceFile. revert w.
  induction data as [|item data IH]; intros w.
  - simpl. lia.
  - rewrite !fmap_cons. cbn [fold_left max_list]. rewrite IH.
    change (property (lit "Source File") (sheetRow item)) with (Some (fileName item)).
    cbn [or_empty]. unfold id. lia.
Qed.


(** ** Batch orchestrator *)

(** *** Objects *)

Lemma get_put key v o : get key (put key v o) = Some v.
Proof.
  induction o as [|[k v0] o IH]; simpl.
  - unfold str_eqb. by rewrite bool_decide_eq_true_2.
  - destruct (str_eqb k key) eqn:Hk; simpl; by rewrite Hk.
Qed.

Lemma get_put_ne key key' v o :
  key <> key' -> get key' (put key v o) = get key' o.
Proof.
  intros Hne. induction o as [|[k v0] o IH]; simpl.
  - unfold str_eqb. by rewrite bool_decide_eq_false_2.
  - destruct (str_eqb k key) eqn:Hk; simpl.
    + apply bool_decide_eq_true in Hk as ->.
      unfold str_eqb. by rewrite bool_decide_eq_false_2.
    + by rewrite IH.
Qed.

(** A property of a spread is the one copied last, and the one that was
    there when none is copied. *)
Lemma get_spread key o v :
  get key (spread o v)
  = match copied key v with Some x => Some x | None => get key o end.
Proof.
  unfold copied, spread. generalize (own_properties v). intros props.
  induction props as [|[k x] props IH] using rev_ind; [done|].
  rewrite !foldl_snoc. cbn [fst snd].
  destruct (decide (k = key)) as [->|Hne].
  - by rewrite !get_put.
  - by rewrite !get_put_ne.
Qed.

Lemma withFileName_fileName file data :
  get (lit "fileName") (withFileName file data)
  = Some (default (JString (File.name file)) (copied (lit "fileName") data)).
Proof. unfold withFileName. rewrite get_spread. by destruct (copied _ data). Qed.

Lemma withFileName_invoiceNumber file data :
  get (lit "invoiceNumber") (withFileName file data)
  = copied (lit "invoiceNumber") data.
Proof. unfold withFileName. rewrite get_spread. by destruct (copied _ data). Qed.

(** *** The sanitizing pass *)

Lemma sanitizeInvoiceNumber_call_returns raw digits :
  sanitizeInvoiceNumber_call raw = Some digits ->
  (forall s, raw = Some (JString s) -> digits = sanitizeInvoiceNumber (Some s))
  /\ (truthy_value raw = false -> digits = [])
  /\ digits_only digits = true.
Proof.
  intros Hcall.
  assert (Hd : exists r, digits = sanitizeInvoiceNumber r).
  { revert Hcall. unfold sanitizeInvoiceNumber_call.
    destruct raw as [[| | | | |]|]; try destruct (truthy_value _);
      intros [= <-]; eauto. }
  split_and!.
  - intros s ->. by injection Hcall as <-.
  - intros Hfalsy. revert Hcall. unfold sanitizeInvoiceNumber_call.
    destruct raw as [[| | | s| |]|]; rewrite ?Hfalsy; try by intros [= <-].
    destruct s; [by intros [= <-]|done].
  - destruct Hd as [r ->]. apply sanitizeInvoiceNumber_digits_only.
Qed.

Lemma sanitizedRecord_Some v record :
  sanitizedRecord v = Some record ->
  exists digits,
    sanitizeInvoiceNumber_call (get (lit "invoiceNumber") v) = Some digits
    /\ record = put (lit "invoiceNumber") (JString digits) v.
Proof.
  unfold sanitizedRecord.
  destruct (sanitizeInvoiceNumber_call _) as [digits|]; [|done].
  intros [= <-]. by exists digits.
Qed.

Lemma sanitizedRecord_None v :
  sanitizedRecord v = None ->
  sanitizeInvoiceNumber_call (get (lit "invoiceNumber") v) = None.
Proof.
  unfold sanitizedRecord. by destruct (sanitizeInvoiceNumber_call _).
Qed.

Lemma sanitizedRecord_fileName v record :
  sanitizedRecord v = Some record ->
  get (lit "fileName") record = get (lit "fileName") v.
Proof.
  intros Hs. destruct (sanitizedRecord_Some _ _ Hs) as (digits & _ & ->).
  by apply get_put_ne.
Qed.

Lemma sanitizedRecord_invoiceNumber v record :
  sanitizedRecord v = Some record ->
  exists digits,
    get (lit "invoiceNumber") record = Some (JString digits)
    /\ digits_only digits = true.
Proof.
  intros Hs. destruct (sanitizedRecord_Some _ _ Hs) as (digits & Hcall & ->).
  exists digits. split; [apply get_put|].
  by destruct (sanitizeInvoiceNumber_call_returns _ _ Hcall) as (_ & _ & ?).
Qed.

(** The all-["Error"] record after the pass: no digit is left of
    ["Error"]. *)
Lemma sanitizedRecord_errorRecord file :
  sanitizedRecord (errorRecord file)
  = Some [ (lit "fileName", JString (File.name file));
           (lit "invoiceNumber", JString []);
           (lit "companyNumber", JString (lit "Error"));
           (lit "date", JString (lit "Error"));
           (lit "totalAmount", JString (lit "Error")) ].
Proof. reflexivity. Qed.

(** On a record of the declared type the pass returns, and it is the pass
    [sanitized] at that type. *)
Lemma sanitizedRecord_typed r :
  sanitizedRecord (to_object r) = Some (to_object (sanitized r)).
Proof. reflexivity. Qed.

Lemma typed_to_object r : typed (to_object r) = Some r.
Proof. by destruct r. Qed.

Lemma sanitizedResults_lookup results records i :
  sanitizedResults results = Some records ->
  records !! i = results !! i ≫= sanitizedRecord.
Proof.
  unfold sanitizedResults. intros Hs. apply mapM_Some in Hs.
  revert i. induction Hs as [|v record results records Hv _ IH]; intros i; [done|].
  destruct i as [|i]; simpl; [by rewrite Hv|apply IH].
Qed.

Lemma sanitizedResults_length results records :
  sanitizedResults results = Some records -> length records = length results.
Proof. intros Hs. symmetry. by eapply length_mapM. Qed.

Lemma sanitizedResults_None results :
  sanitizedResults results = None ->
  exists i v, results !! i = Some v /\ sanitizedRecord v = None.
Proof.
  unfold sanitizedResults. intros Hs. apply mapM_None in Hs.
  apply Exists_exists in Hs as (v & Hin & Hv).
  apply list_elem_of_lookup in Hin as [i Hi]. by exists i, v.
Qed.

Lemma sanitizedResults_Some results :
  (forall i v, results !! i = Some v -> is_Some (sanitizedRecord v)) ->
  is_Some (sanitizedResults results).
Proof.
  intros Hall. unfold sanitizedResults. apply mapM_is_Some.
  apply Forall_lookup. intros i v Hi. by eapply Hall.
Qed.

Section Orchestrator.
Context `{!JSON}.

(** *** One task *)

Lemma task_step_unsettled file t e t' :
  task_step file t e = Some t' -> is_settled t = false.
Proof. destruct t, e; simpl; congruence. Qed.

Lemma onextracted_fulfilled file p answer :
  exists v, onextracted file p answer = Settled (Fulfilled v).
Proof.
  unfold onextracted. destruct (extractInvoiceData p answer); eauto.
Qed.

Lemma task_step_not_rejected file t e t' :
  task_step file t e = Some t' -> is_rejected t' = false.
Proof.
  destruct t, e; simpl; try congruence; intros [= <-]; try done.
  - unfold onload. by destruct (truthy _).
  - by destruct (onextracted_fulfilled file base64ImageData answer) as (v & ->).
Qed.

Lemma task_step_work file t e t' :
  task_step file t e = Some t' -> work t' < work t.
Proof.
  destruct t, e; simpl; try congruence; intros [= <-]; simpl; try lia.
  - unfold onload. destruct (truthy _); simpl; lia.
  - destruct (onextracted_fulfilled file base64ImageData answer) as (w & ->).
    simpl. lia.
Qed.

Lemma task_step_settled file s e : task_step file (Settled s) e = None.
Proof. by destruct e. Qed.

Lemma task_exec_settled_nil file s events t :
  task_exec file (Settled s) events = Some t -> events = [].
Proof.
  destruct events as [|e events]; [done|]. cbn [task_exec].
  by rewrite task_step_settled.
Qed.

(** A promise, once settled, is fulfilled with the outcome of the events of
    its file. *)
Lemma task_exec_settled file events s :
  task_exec file Reading events = Some (Settled s) ->
  s = Fulfilled (outcome file events).
Proof.
  destruct events as [|e1 events]; [done|]. cbn [task_exec].
  destruct e1 as [i result|i|i answer|a]; cbn [task_step mbind option_bind]; try done.
  - unfold onload. destruct (truthy (payload result)) eqn:Hp.
    + destruct events as [|e2 events]; [done|]. cbn [task_exec].
      destruct e2 as [| |j answer|]; cbn [task_step mbind option_bind]; try done.
      intros Hex. pose proof Hex as Hnil. revert Hnil Hex.
      destruct (onextracted_fulfilled file (or_empty (payload result)) answer) as (v & Hv).
      rewrite Hv. intros Hnil. apply task_exec_settled_nil in Hnil as ->.
      cbn [task_exec]. intros [= <-]. f_equal.
      revert Hv. unfold outcome, returned, onextracted. rewrite Hp.
      destruct (extractInvoiceData _ answer); by intros [= <-].
    + intros Hex. pose proof Hex as Hnil. apply task_exec_settled_nil in Hnil as ->.
      revert Hex. cbn [task_exec]. by intros [= <-].
  - unfold onerror. intros Hex. pose proof Hex as Hnil.
    apply task_exec_settled_nil in Hnil as ->.
    revert Hex. cbn [task_exec]. by intros [= <-].
Qed.

Lemma not_ok_throws p response :
  ok response = false ->
  extractInvoiceData p (Responded response)
  = inr (ServerExtractionFailed (response_text response)).
Proof. intros Hok. unfold extractInvoiceData. by rewrite Hok. Qed.

(** A failure is an outcome without a returned extraction: the promise is
    fulfilled with the all-["Error"] record. *)
Lemma Failure_outcome i file events :
  Failure i events ->
  returned events = None
  /\ outcome file events = errorRecord file
  /\ task_exec file Reading events = Some (Settled (Fulfilled (errorRecord file))).
Proof.
  intros [|result Hp|result answer exn Hp Hx]; unfold outcome; simpl.
  - done.
  - unfold onload. by rewrite Hp.
  - unfold onload. rewrite Hp, Hx. simpl. unfold onextracted. by rewrite Hx.
Qed.

(** The outcome of a file always goes through the sanitizer, unless an
    extraction returned for it and the sanitizer throws on the invoice
    number of what it returned. *)
Lemma outcome_thrown file events :
  sanitizedRecord (outcome file events) = None ->
  exists data,
    returned events = Some data
    /\ sanitizeInvoiceNumber_call (copied (lit "invoiceNumber") data) = None.
Proof.
  unfold outcome. destruct (returned events) as [data|]; [|done].
  intros Hs. exists data. split; [done|].
  apply sanitizedRecord_None in Hs. by rewrite withFileName_invoiceNumber in Hs.
Qed.

Lemma outcome_fileName file events :
  get (lit "fileName") (outcome file events)
  = Some (default (JString (File.name file))
            (returned events ≫= copied (lit "fileName"))).
Proof.
  unfold outcome. destruct (returned events) as [data|]; [|done].
  apply withFileName_fileName.
Qed.

(** *** The joint promise *)

Lemma Promise_all_spec promises :
  forallb (fun t => negb (is_rejected t)) promises = true ->
  Promise_all promises
  = if forallb is_settled promises then JointFulfilled (omap value promises)
    else JointPending.
Proof.
  induction promises as [|t ts IH]; simpl; [done|].
  rewrite andb_true_iff. intros [Ht Hts]. rewrite (IH Hts).
  destruct t as [| |[v|reason]]; simpl in *; try done.
  - by destruct (forallb is_settled ts).
  - by destruct (forallb is_settled ts).
  - by destruct (forallb is_settled ts).
Qed.

Lemma lookup_values promises i :
  forallb is_settled promises = true ->
  forallb (fun t => negb (is_rejected t)) promises = true ->
  omap value promises !! i = promises !! i ≫= value.
Proof.
  revert i. induction promises as [|t ts IH]; intros i; simpl; [done|].
  rewrite !andb_true_iff. intros [Ht Hts] [Hr Hrs].
  destruct t as [| |[v|reason]]; try done.
  destruct i as [|i]; simpl; [done|]. by apply IH.
Qed.

Lemma length_values promises :
  forallb is_settled promises = true ->
  forallb (fun t => negb (is_rejected t)) promises = true ->
  length (omap value promises) = length promises.
Proof.
  induction promises as [|t ts IH]; simpl; [done|].
  rewrite !andb_true_iff. intros [Ht Hts] [Hr Hrs].
  destruct t as [| |[v|reason]]; try done.
  cbn [value length]. f_equal. by apply IH.
Qed.

Lemma forallb_insert {A} (p : A -> bool) (l : list A) i x :
  forallb p l = true -> p x = true -> forallb p (<[i := x]> l) = true.
Proof.
  revert i. induction l as [|y l IH]; intros i; simpl; [done|].
  rewrite andb_true_iff. intros [Hy Hl] Hx.
  destruct i; simpl; rewrite ?Hy, ?Hx; [done|]. by rewrite IH.
Qed.

Lemma forallb_lookup {A} (p : A -> bool) (l : list A) i x :
  forallb p l = true -> l !! i = Some x -> p x = true.
Proof.
  intros Hall Hi. rewrite forallb_forall in Hall. apply Hall.
  apply list_elem_of_In. by eapply list_elem_of_lookup_2.
Qed.

Lemma total_work_insert promises i t t' :
  promises !! i = Some t -> work t' < work t ->
  total_work (<[i := t']> promises) < total_work promises.
Proof.
  unfold total_work. revert i.
  induction promises as [|u us IH]; intros i; [done|].
  destruct i as [|i]; simpl.
  - intros [= ->] ?. lia.
  - intros Hi Hw. apply Nat.add_lt_mono_l. exact (IH i Hi Hw).
Qed.

(** *** The user's actions leave the results alone *)

Lemma criticalMessage_not_cap added current : capMessage added current <> criticalMessage.
Proof. unfold capMessage, criticalMessage. simpl. discriminate. Qed.

Lemma act_results {R} (st : StateOf R) a :
  extractedData (act st a) = extractedData st
  /\ isLoading (act st a) = isLoading st
  /\ (error st <> criticalMessage -> error (act st a) <> criticalMessage).
Proof.
  destruct a as [files|index]; simpl.
  - unfold handleFileSelection. destruct files as [[|f fs]|]; [done| |done].
    destruct (MAX_FILES <? _).
    + simpl. split_and!; try done; intros _; apply criticalMessage_not_cap.
    + destruct (0 <? _); [|done]. simpl. split_and!; done.
  - unfold removeFile. simpl. split_and!; done.
Qed.

(** *** Steps of a run *)

Lemma resume_frame r :
  files (resume r) = files r
  /\ processingPromises (resume r) = processingPromises r.
Proof.
  unfold resume. destruct (phase r); [|done|done].
  destruct (Promise_all _); [done| |done]. by destruct (sanitizedResults _).
Qed.

Lemma step_user r a r' :
  step r (User a) = Some r' ->
  r' = {| state := act (state r) a; files := files r;
          processingPromises := processingPromises r; phase := phase r |}.
Proof. unfold step. simpl. congruence. Qed.

Lemma step_file r e i r' :
  target e = Some i ->
  step r e = Some r' ->
  exists file t t',
    files r !! i = Some file
    /\ processingPromises r !! i = Some t
    /\ task_step file t e = Some t'
    /\ r' = resume {| state := state r; files := files r;
                      processingPromises := <[i := t']> (processingPromises r);
                      phase := phase r |}.
Proof.
  intros Hi. unfold step. rewrite Hi.
  destruct (files r !! i) as [file|] eqn:Hf; cbn [mbind option_bind]; [|done].
  destruct (processingPromises r !! i) as [t|] eqn:Ht; cbn [mbind option_bind]; [|done].
  destruct (task_step file t e) as [t'|] eqn:Hs; cbn [mbind option_bind]; [|done].
  intros [= <-]. by exists file, t, t'.
Qed.

Lemma step_frame r e r' :
  step r e = Some r' ->
  files r' = files r
  /\ length (processingPromises r') = length (processingPromises r).
Proof.
  destruct (target e) as [i|] eqn:Hi.
  - intros Hs. destruct (step_file r e i r' Hi Hs) as (file & t & t' & _ & _ & _ & ->).
    destruct (resume_frame {| state := state r; files := files r;
      processingPromises := <[i := t']> (processingPromises r); phase := phase r |})
      as [-> ->].
    simpl. by rewrite length_insert.
  - destruct e; try done. intros Hs. by rewrite (step_user _ _ _ Hs).
Qed.

Lemma Invariant_start {R} (st : StateOf R) r0 :
  processInvoices st = inr r0 -> Invariant r0.
Proof.
  unfold processInvoices.
  destruct (selectedFiles st) as [|f fs] eqn:Hsel; [done|].
  simpl. intros [= <-]. split; simpl.
  - by rewrite length_fmap.
  - clear. induction fs; simpl; [done|]. done.
  - discriminate.
  - done.
Qed.

Lemma Invariant_step r e r' :
  Invariant r -> step r e = Some r' -> Invariant r'.
Proof.
  intros [Hlen Hrej Herr Hphase] Hstep.
  destruct (target e) as [i|] eqn:Hi.
  - destruct (step_file r e i r' Hi Hstep) as (file & t & t' & Hf & Ht & Hts & ->).
    pose proof (task_step_unsettled _ _ _ _ Hts) as Hunsettled.
    pose proof (task_step_not_rejected _ _ _ _ Hts) as Hnr.
    assert (Hrej' : forallb (fun t => negb (is_rejected t))
                      (<[i := t']> (processingPromises r)) = true).
    { apply forallb_insert; [done|]. by rewrite Hnr. }
    destruct (phase r) eqn:Hp.
    + destruct Hphase as (Hpending & Hdata & Hload).
      assert (Hquiet : error (state r) <> criticalMessage) by by apply Herr.
      unfold resume. cbn [phase processingPromises state files].
      rewrite (Promise_all_spec _ Hrej').
      destruct (forallb is_settled (<[i := t']> (processingPromises r))) eqn:Hall.
      * destruct (sanitizedResults _) as [records|] eqn:Hs.
        -- split; cbn [phase processingPromises state files]; try done.
           by rewrite length_insert.
        -- split; cbn [phase processingPromises state files]; try done.
           by rewrite length_insert.
      * split; cbn [phase processingPromises state files]; try done.
        by rewrite length_insert.
    + destruct Hphase as (Hall & _). unfold all_settled in Hall.
      rewrite (forallb_lookup _ _ _ _ Hall Ht) in Hunsettled. done.
    + destruct Hphase as (Hall & _). unfold all_settled in Hall.
      rewrite (forallb_lookup _ _ _ _ Hall Ht) in Hunsettled. done.
  - destruct e as [| | |a]; try done.
    rewrite (step_user _ _ _ Hstep).
    destruct (act_results (state r) a) as (Hd & Hl & He).
    split; cbn [phase processingPromises state files]; try done.
    + intros Hp. by apply He, Herr.
    + unfold all_settled in *. cbn [processingPromises].
      destruct (phase r); by rewrite Hd, Hl.
Qed.

Lemma Invariant_exec events : forall r r',
  Invariant r -> exec r events = Some r' -> Invariant r'.
Proof.
  induction events as [|e events IH]; intros r r' Hinv; simpl.
  - by intros [= <-].
  - destruct (step r e) as [r1|] eqn:Hs; [|done]. simpl.
    apply IH. by eapply Invariant_step.
Qed.

Lemma exec_frame events : forall r r',
  exec r events = Some r' ->
  files r' = files r
  /\ length (processingPromises r') = length (processingPromises r).
Proof.
  induction events as [|e events IH]; intros r r'; simpl.
  - by intros [= <-].
  - destruct (step r e) as [r1|] eqn:Hs; [|done]. simpl. intros Hex.
    destruct (IH _ _ Hex) as [-> ->]. by apply step_frame in Hs.
Qed.

(** *** The promise of a file depends on the events of that file only *)

Lemma events_of_cons i e events :
  events_of i (e :: events)
  = if bool_decide (target e = Some i) then e :: events_of i events
    else events_of i events.
Proof. done. Qed.

Lemma step_promise_other r e r' j :
  step r e = Some r' -> target e <> Some j ->
  processingPromises r' !! j = processingPromises r !! j.
Proof.
  intros Hs Hne. destruct (target e) as [i|] eqn:Hi.
  - destruct (step_file r e i r' Hi Hs) as (file & t & t' & _ & _ & _ & ->).
    destruct (resume_frame {| state := state r; files := files r;
      processingPromises := <[i := t']> (processingPromises r); phase := phase r |})
      as [_ ->].
    simpl. apply list_lookup_insert_ne. congruence.
  - destruct e; try done. by rewrite (step_user _ _ _ Hs).
Qed.

Lemma step_promise_same r e r' i file t :
  step r e = Some r' -> target e = Some i ->
  files r !! i = Some file -> processingPromises r !! i = Some t ->
  exists t', task_step file t e = Some t' /\ processingPromises r' !! i = Some t'.
Proof.
  intros Hs Hi Hf Ht.
  destruct (step_file r e i r' Hi Hs) as (file' & u & t' & Hf' & Hu & Hts & ->).
  rewrite Hf in Hf'. injection Hf' as <-. rewrite Ht in Hu. injection Hu as <-.
  exists t'. split; [done|].
  destruct (resume_frame {| state := state r; files := files r;
    processingPromises := <[i := t']> (processingPromises r); phase := phase r |})
    as [_ ->].
  simpl. apply list_lookup_insert_eq. by eapply lookup_lt_Some.
Qed.

Lemma exec_promise events : forall r r' i file t,
  exec r events = Some r' ->
  files r !! i = Some file -> processingPromises r !! i = Some t ->
  task_exec file t (events_of i events) = processingPromises r' !! i.
Proof.
  induction events as [|e events IH]; intros r r' i file t; cbn [exec].
  - by intros [= <-] _ ->.
  - destruct (step r e) as [r1|] eqn:Hs; cbn [mbind option_bind]; [|done].
    intros Hex Hf Ht. rewrite events_of_cons.
    pose proof (step_frame _ _ _ Hs) as [Hfiles _].
    case_bool_decide as Hi.
    + destruct (step_promise_same _ _ _ _ _ _ Hs Hi Hf Ht) as (t' & Hts & Ht').
      cbn [task_exec]. rewrite Hts. cbn [mbind option_bind].
      eapply IH; [done| |done]. by rewrite Hfiles.
    + eapply IH; [done| |].
      * by rewrite Hfiles.
      * by rewrite (step_promise_other _ _ _ _ Hs Hi).
Qed.

Lemma exec_same_events r0 events1 events2 r1 r2 :
  length (processingPromises r0) = length (files r0) ->
  exec r0 events1 = Some r1 -> exec r0 events2 = Some r2 ->
  (forall i, i < length (files r0) -> events_of i events1 = events_of i events2) ->
  processingPromises r1 = processingPromises r2.
Proof.
  intros Hlen H1 H2 Hsame. apply list_eq. intros i.
  destruct (exec_frame _ _ _ H1) as [_ Hl1].
  destruct (exec_frame _ _ _ H2) as [_ Hl2].
  destruct (decide (i < length (files r0))) as [Hi|Hi].
  - destruct (lookup_lt_is_Some_2 (files r0) i Hi) as [file Hf].
    rewrite <- Hlen in Hi.
    destruct (lookup_lt_is_Some_2 (processingPromises r0) i Hi) as [t Ht].
    rewrite <- (exec_promise _ _ _ _ _ _ H1 Hf Ht).
    rewrite <- (exec_promise _ _ _ _ _ _ H2 Hf Ht).
    rewrite Hsame; [done|]. by rewrite <- Hlen.
  - rewrite !lookup_ge_None_2; [done|lia|lia].
Qed.

Lemma processInvoices_starts {R} (st : StateOf R) :
  selectedFiles st <> [] ->
  processInvoices st
  = inr {| state := resetUI st; files := selectedFiles st;
           processingPromises := (fun _ => Reading) <$> selectedFiles st;
           phase := Awaiting |}.
Proof. unfold processInvoices. by destruct (selectedFiles st). Qed.

Lemma processInvoices_files {R} (st : StateOf R) r0 :
  processInvoices st = inr r0 ->
  files r0 = selectedFiles st
  /\ processingPromises r0 = (fun _ => Reading) <$> selectedFiles st.
Proof.
  unfold processInvoices. destruct (length _ =? 0); [done|]. by intros [= <-].
Qed.

(** In a run, the promise of a file is what the events of that file make of
    a promise whose reader has just been started. *)
Lemma run_promise {R} (st : StateOf R) r0 r events i file :
  processInvoices st = inr r0 ->
  exec r0 events = Some r ->
  selectedFiles st !! i = Some file ->
  processingPromises r !! i = task_exec file Reading (events_of i events).
Proof.
  intros Hstart Hex Hf.
  destruct (processInvoices_files _ _ Hstart) as [Hfiles Hpromises].
  symmetry. eapply exec_promise; [done|by rewrite Hfiles|].
  by rewrite Hpromises, list_lookup_fmap, Hf.
Qed.

Lemma run_length {R} (st : StateOf R) r0 r events :
  processInvoices st = inr r0 ->
  exec r0 events = Some r ->
  length (processingPromises r) = length (selectedFiles st).
Proof.
  intros Hstart Hex.
  destruct (processInvoices_files _ _ Hstart) as [_ Hpromises].
  destruct (exec_frame _ _ _ Hex) as [_ ->]. by rewrite Hpromises, length_fmap.
Qed.

(** The values of the promises of a run in which all are settled. *)
Lemma run_values {R} (st : StateOf R) r0 r events :
  processInvoices st = inr r0 ->
  exec r0 events = Some r ->
  all_settled r = true ->
  omap value (processingPromises r) = outcomes (selectedFiles st) events.
Proof.
  intros Hstart Hex Hall.
  pose proof (Invariant_exec _ _ _ (Invariant_start _ _ Hstart) Hex) as Hinv.
  apply list_eq. intros i.
  rewrite (lookup_values _ _ Hall (inv_not_rejected r Hinv)).
  unfold outcomes. rewrite list_lookup_imap.
  destruct (selectedFiles st !! i) as [file|] eqn:Hf; cbn [fmap option_fmap option_map].
  - pose proof (run_promise _ _ _ _ _ _ Hstart Hex Hf) as Hp.
    assert (Hi : i < length (processingPromises r)).
    { rewrite (run_length _ _ _ _ Hstart Hex). by eapply lookup_lt_Some. }
    destruct (lookup_lt_is_Some_2 _ i Hi) as [t Ht]. rewrite Ht. cbn [mbind option_bind].
    pose proof (forallb_lookup _ _ _ _ Hall Ht) as Hs.
    destruct t as [| |s]; try done.
    rewrite Ht in Hp. symmetry in Hp. by rewrite (task_exec_settled _ _ _ Hp).
  - rewrite lookup_ge_None_2; [done|].
    rewrite (run_length _ _ _ _ Hstart Hex). by apply lookup_ge_None_1.
Qed.

Lemma outcomes_lookup batch events i :
  outcomes batch events !! i
  = (fun file => outcome file (events_of i events)) <$> batch !! i.
Proof. unfold outcomes. by rewrite list_lookup_imap. Qed.

(** *** Results of a run *)

Lemma results_pending r :
  Invariant r -> all_settled r = false ->
  phase r = Awaiting /\ extractedData (state r) = [] /\ isLoading (state r) = true.
Proof.
  intros [_ _ _ Hphase] Hall. destruct (phase r).
  - by destruct Hphase as (_ & ? & ?).
  - destruct Hphase as [Hs _]. congruence.
  - destruct Hphase as [Hs _]. congruence.
Qed.

(** When every promise is settled the function is through its [try] block,
    with the sanitized values as results, or, where the sanitizer threw,
    through its [catch] block, without results. *)
Lemma results_settled r :
  Invariant r -> all_settled r = true ->
  isLoading (state r) = false
  /\ extractedData (state r)
     = default [] (sanitizedResults (omap value (processingPromises r)))
  /\ phase r
     = match sanitizedResults (omap value (processingPromises r)) with
       | Some _ => Surfaced
       | None => Crashed
       end.
Proof.
  intros [_ _ _ Hphase] Hall. destruct (phase r).
  - destruct Hphase as [Hs _]. congruence.
  - destruct Hphase as (_ & -> & ?). done.
  - destruct Hphase as (_ & -> & ? & ?). done.
Qed.

Lemma results_surfaced r :
  Invariant r -> phase r = Surfaced ->
  all_settled r = true
  /\ sanitizedResults (omap value (processingPromises r))
     = Some (extractedData (state r)).
Proof.
  intros [_ _ _ Hphase] Hp. rewrite Hp in Hphase. by destruct Hphase as (? & ? & _).
Qed.

Lemma results_crashed r :
  Invariant r -> phase r = Crashed ->
  all_settled r = true
  /\ sanitizedResults (omap value (processingPromises r)) = None
  /\ extractedData (state r) = [].
Proof.
  intros [_ _ _ Hphase] Hp. rewrite Hp in Hphase.
  by destruct Hphase as (? & ? & ? & _).
Qed.


(** *** The run goes on to its end *)

Lemma forallb_false_lookup {A} (p : A -> bool) (l : list A) :
  forallb p l = false -> exists i x, l !! i = Some x /\ p x = false.
Proof.
  induction l as [|y l IH]; simpl; [done|].
  destruct (p y) eqn:Hy; simpl.
  - intros Hl. destruct (IH Hl) as (i & x & Hi & Hx). by exists (S i), x.
  - intros _. by exists 0, y.
Qed.

Lemma step_enabled r e i file t t' :
  target e = Some i ->
  files r !! i = Some file -> processingPromises r !! i = Some t ->
  task_step file t e = Some t' ->
  step r e = Some (resume {| state := state r; files := files r;
                             processingPromises := <[i := t']> (processingPromises r);
                             phase := phase r |}).
Proof.
  intros Hi Hf Ht Hts. unfold step. rewrite Hi, Hf. cbn [mbind option_bind].
  rewrite Ht. cbn [mbind option_bind]. by rewrite Hts.
Qed.

Lemma settle_now_enabled file i t :
  is_settled t = false ->
  target (settle_now i t) = Some i
  /\ exists t', task_step file t (settle_now i t) = Some t'.
Proof. destruct t; simpl; [eauto|eauto|done]. Qed.

(** A run is at rest, with no event of a file left to deliver, only when
    every promise is settled. *)
Lemma at_rest_settled r :
  Invariant r ->
  (forall e, is_file_event e = true -> step r e = None) ->
  all_settled r = true.
Proof.
  intros Hinv Hrest. destruct (all_settled r) eqn:Hall; [done|].
  destruct (forallb_false_lookup _ _ Hall) as (i & t & Ht & Hs).
  assert (Hi : i < length (files r))
    by (rewrite <- (inv_length r Hinv); by eapply lookup_lt_Some).
  destruct (lookup_lt_is_Some_2 _ i Hi) as [file Hf].
  destruct (settle_now_enabled file i t Hs) as (Htarget & t' & Hts).
  pose proof (step_enabled r _ i file t t' Htarget Hf Ht Hts) as Hstep.
  rewrite Hrest in Hstep; [done|]. unfold is_file_event. by rewrite Htarget.
Qed.

Lemma exec_completes n : forall r,
  Invariant r -> total_work (processingPromises r) <= n ->
  exists events r', exec r events = Some r' /\ all_settled r' = true.
Proof.
  induction n as [|n IH]; intros r Hinv Hn;
    destruct (all_settled r) eqn:Hall;
    try (exists [], r; split; [done|exact Hall]).
  - destruct (forallb_false_lookup _ _ Hall) as (i & t & Ht & Hs).
    assert (Hi : i < length (files r))
      by (rewrite <- (inv_length r Hinv); by eapply lookup_lt_Some).
    destruct (lookup_lt_is_Some_2 _ i Hi) as [file Hf].
    destruct (settle_now_enabled file i t Hs) as (Htarget & t' & Hts).
    pose proof (total_work_insert _ i t t' Ht (task_step_work _ _ _ _ Hts)). lia.
  - destruct (forallb_false_lookup _ _ Hall) as (i & t & Ht & Hs).
    assert (Hi : i < length (files r))
      by (rewrite <- (inv_length r Hinv); by eapply lookup_lt_Some).
    destruct (lookup_lt_is_Some_2 _ i Hi) as [file Hf].
    destruct (settle_now_enabled file i t Hs) as (Htarget & t' & Hts).
    pose proof (step_enabled r _ i file t t' Htarget Hf Ht Hts) as Hstep.
    set (r1 := resume _) in Hstep.
    assert (Hinv1 : Invariant r1) by by eapply Invariant_step.
    assert (Hw : total_work (processingPromises r1) <= n).
    { unfold r1. destruct (resume_frame {| state := state r; files := files r;
        processingPromises := <[i := t']> (processingPromises r); phase := phase r |})
        as [_ ->]. simpl.
      pose proof (total_work_insert _ i t t' Ht (task_step_work _ _ _ _ Hts)). lia. }
    destruct (IH r1 Hinv1 Hw) as (events & r' & Hex & Hdone).
    exists (settle_now i t :: events), r'. split; [|done].
    simpl. rewrite Hstep. done.
Qed.

Lemma exec_work events : forall r r',
  exec r events = Some r' ->
  total_work (processingPromises r') + length (List.filter is_file_event events)
  <= total_work (processingPromises r).
Proof.
  induction events as [|e events IH]; intros r r'; simpl.
  - intros [= <-]. lia.
  - destruct (step r e) as [r1|] eqn:Hs; [|done]. cbn [mbind option_bind].
    intros Hex. specialize (IH _ _ Hex).
    unfold is_file_event at 1. destruct (target e) as [i|] eqn:Hi.
    + destruct (step_file r e i r1 Hi Hs) as (file & t & t' & _ & Ht & Hts & ->).
      destruct (resume_frame {| state := state r; files := files r;
        processingPromises := <[i := t']> (processingPromises r); phase := phase r |})
        as [_ Hp]. rewrite Hp in IH. simpl in IH.
      pose proof (total_work_insert _ i t t' Ht (task_step_work _ _ _ _ Hts)).
      simpl. lia.
    + destruct e; try done. rewrite (step_user _ _ _ Hs) in IH. simpl in IH. lia.
Qed.

Lemma total_work_start (l : list File.t) :
  total_work ((fun _ => Reading) <$> l) = 2 * length l.
Proof.
  unfold total_work. induction l as [|f l IH]; [done|].
  rewrite !fmap_cons. cbn [sum_list work length]. rewrite IH. unfold id. lia.
Qed.

(** *** The contract of the orchestrator *)

(** An answer of the declared type, an object of the four fields as
    strings, is plain. *)
Lemma plain_declared invoiceNumber companyNumber date totalAmount :
  plain (JObject [ (lit "invoiceNumber", JString invoiceNumber);
                   (lit "companyNumber", JString companyNumber);
                   (lit "totalAmount", JString totalAmount);
                   (lit "date", JString date) ]).
Proof. split; [reflexivity|]. by eexists. Qed.

Lemma forallb_lookup_all {A} (p : A -> bool) (l : list A) :
  (forall i x, l !! i = Some x -> p x = true) -> forallb p l = true.
Proof.
  intros Hall. apply forallb_forall. intros x Hx.
  apply list_elem_of_In, list_elem_of_lookup in Hx as [i Hi]. by eapply Hall.
Qed.

(** A run in which every promise is settled: the results are the sanitized
    outcomes of the files, one per file and in the order of the files, each
    under the name of its file or under the [fileName] that the extraction
    returned for it; or there are none, because the sanitizer threw on the
    invoice number that an extraction returned. *)
Lemma run_settled {R} (st : StateOf R) r0 r events :
  processInvoices st = inr r0 ->
  exec r0 events = Some r ->
  all_settled r = true ->
  extractedData (state r)
  = default [] (sanitizedResults (outcomes (selectedFiles st) events))
  /\ (phase r = Surfaced
      /\ length (extractedData (state r)) = length (selectedFiles st)
      /\ (forall i file,
            selectedFiles st !! i = Some file ->
            exists record,
              extractedData (state r) !! i = Some record
              /\ sanitizedRecord (outcome file (events_of i events)) = Some record
              /\ get (lit "fileName") record
                 = Some (default (JString (File.name file))
                           (returned (events_of i events)
                              ≫= copied (lit "fileName"))))
      \/ phase r = Crashed
         /\ extractedData (state r) = []
         /\ exists i file data,
              selectedFiles st !! i = Some file
              /\ returned (events_of i events) = Some data
              /\ sanitizeInvoiceNumber_call (copied (lit "invoiceNumber") data)
                 = None).
Proof.
  intros Hstart Hex Hall.
  pose proof (Invariant_exec _ _ _ (Invariant_start _ _ Hstart) Hex) as Hinv.
  destruct (results_settled r Hinv Hall) as (_ & Hdata & Hphase).
  rewrite (run_values _ _ _ _ Hstart Hex Hall) in Hdata, Hphase.
  split; [done|].
  destruct (sanitizedResults (outcomes (selectedFiles st) events))
    as [records|] eqn:Hs; cbn [default] in Hdata.
  - left. split; [done|]. rewrite Hdata.
    assert (Hlen : length records = length (selectedFiles st)).
    { rewrite (sanitizedResults_length _ _ Hs). unfold outcomes. by rewrite length_imap. }
    split; [done|]. intros i file Hf.
    pose proof (sanitizedResults_lookup _ _ i Hs) as Hrec.
    rewrite outcomes_lookup, Hf in Hrec. cbn in Hrec.
    destruct (records !! i) as [record|] eqn:Hi.
    + exists record. split; [done|]. split; [done|].
      rewrite (sanitizedRecord_fileName _ record) by done. apply outcome_fileName.
    + apply lookup_ge_None_1 in Hi. apply lookup_lt_Some in Hf. lia.
  - right. split; [done|]. split; [done|].
    destruct (sanitizedResults_None _ Hs) as (i & v & Hi & Hv).
    rewrite outcomes_lookup in Hi.
    destruct (selectedFiles st !! i) as [file|] eqn:Hf; [|done]. injection Hi as <-.
    destruct (outcome_thrown _ _ Hv) as (data & Hret & Hcall).
    by exists i, file, data.
Qed.

(** C1, as the code has it. For a selection of [k] files, [1 <= k <= 10],
    [processInvoices] starts a run, and after whatever events in whatever
    order: while a promise is pending no result is shown and the busy flag
    is set, and the run can always be brought to the point where every
    promise is settled. From then on the results are the sanitized outcomes
    of the files: either [k] records, the record at each position carrying
    the name of the file at that position, or the [fileName] of what the
    extraction of that file returned when it has one; or no record at all
    and the [catch] phase, when the extraction of some file returned an
    invoice number on which the sanitizer throws, a value that is neither
    falsy nor a string. When what the extractions returned is plain (no
    [fileName], an invoice number that the sanitizer takes) there are [k]
    records with the names of the files. Two deliveries that give every
    file the same events, interleaved in any two ways, end in the same
    results and phase. *)
Theorem processInvoices_results {R} (st : StateOf R) (k : nat) :
  length (selectedFiles st) = k ->
  1 <= k <= MAX_FILES ->
  exists r0,
    processInvoices st = inr r0
    /\ (forall events r,
          exec r0 events = Some r ->
          (all_settled r = false ->
             extractedData (state r) = [] /\ isLoading (state r) = true)
          /\ (all_settled r = true ->
                extractedData (state r)
                = default [] (sanitizedResults (outcomes (selectedFiles st) events))
                /\ (phase r = Surfaced
                    /\ length (extractedData (state r)) = k
                    /\ (forall i file,
                          selectedFiles st !! i = Some file ->
                          exists record,
                            extractedData (state r) !! i = Some record
                            /\ get (lit "fileName") record
                               = Some (default (JString (File.name file))
                                         (returned (events_of i events)
                                            ≫= copied (lit "fileName"))))
                    \/ phase r = Crashed
                       /\ extractedData (state r) = []
                       /\ exists i file data,
                            selectedFiles st !! i = Some file
                            /\ returned (events_of i events) = Some data
                            /\ sanitizeInvoiceNumber_call
                                 (copied (lit "invoiceNumber") data) = None))
          /\ (all_settled r = true ->
              (forall i data, returned (events_of i events) = Some data -> plain data) ->
              phase r = Surfaced
              /\ length (extractedData (state r)) = k
              /\ forall i file,
                   selectedFiles st !! i = Some file ->
                   exists record,
                     extractedData (state r) !! i = Some record
                     /\ get (lit "fileName") record = Some (JString (File.name file)))
          /\ (exists events' r', exec r events' = Some r' /\ all_settled r' = true))
    /\ (forall events1 events2 r1 r2,
          exec r0 events1 = Some r1 ->
          exec r0 events2 = Some r2 ->
          (forall i, events_of i events1 = events_of i events2) ->
          extractedData (state r1) = extractedData (state r2)
          /\ phase r1 = phase r2).
Proof.
  intros Hk [Hk1 _].
  assert (Hne : selectedFiles st <> [])
    by (destruct (selectedFiles st); simpl in *; [lia|done]).
  pose proof (processInvoices_starts st Hne) as Hstart.
  eexists. split; [exact Hstart|].
  pose proof (Invariant_start st _ Hstart) as Hinv0.
  split.
  - intros events r Hex.
    pose proof (Invariant_exec _ _ _ Hinv0 Hex) as Hinv.
    split_and!.
    + intros Hall. by destruct (results_pending r Hinv Hall) as (_ & ? & ?).
    + intros Hall.
      destruct (run_settled _ _ _ _ Hstart Hex Hall)
        as (Hdata & [(Hp & Hlen & Hrec)|(Hp & Hnil & Hthrown)]).
      * split; [done|]. left. split; [done|]. split; [by rewrite Hlen|].
        intros i file Hf. destruct (Hrec i file Hf) as (record & ? & _ & ?).
        by exists record.
      * split; [done|]. by right.
    + intros Hall Hplain.
      destruct (run_settled _ _ _ _ Hstart Hex Hall)
        as (_ & [(Hp & Hlen & Hrec)|(_ & _ & i & file & data & _ & Hret & Hcall)]).
      * split; [done|]. split; [by rewrite Hlen|].
        intros i file Hf. destruct (Hrec i file Hf) as (record & Hi & _ & Hname).
        exists record. split; [done|]. rewrite Hname.
        destruct (returned (events_of i events)) as [data|] eqn:Hret; [|done].
        destruct (Hplain i data Hret) as [Hnone _]. cbn [mbind option_bind].
        by rewrite Hnone.
      * destruct (Hplain i data Hret) as [_ [digits Hd]]. congruence.
    + by eapply exec_completes.
  - intros events1 events2 r1 r2 H1 H2 Hsame.
    pose proof (Invariant_exec _ _ _ Hinv0 H1) as Hinv1.
    pose proof (Invariant_exec _ _ _ Hinv0 H2) as Hinv2.
    assert (Hp : processingPromises r1 = processingPromises r2).
    { eapply exec_same_events; [apply Hinv0|done|done|by intros]. }
    destruct (all_settled r1) eqn:Hall1.
    + assert (Hall2 : all_settled r2 = true) by (unfold all_settled in *; by rewrite <- Hp).
      destruct (results_settled r1 Hinv1 Hall1) as (_ & -> & ->).
      destruct (results_settled r2 Hinv2 Hall2) as (_ & -> & ->).
      by rewrite Hp.
    + assert (Hall2 : all_settled r2 = false) by (unfold all_settled in *; by rewrite <- Hp).
      destruct (results_pending r1 Hinv1 Hall1) as (-> & -> & _).
      by destruct (results_pending r2 Hinv2 Hall2) as (-> & -> & _).
Qed.

(** C2. In a run, a file whose read fails, whose read gives no payload, or
    whose extraction throws (as it does on every response that is not a
    success, whatever the status) has its promise fulfilled with the record
    that holds the name of the file and ["Error"] in each of the four
    extracted fields. The sanitizer takes this record, and a run that went
    through its [try] block shows it at the position of the file with the
    invoice number emptied. The promises and records of the other files are
    what they are in any other delivery that gives those files the same
    events, whatever happens to this file there; and the failure is never
    what keeps the results from being shown: if the batch is shown in such a
    delivery, it is shown in this one. *)
Theorem failure_is_per_file {R} (st : StateOf R) (r0 r : Run) (events : list Event)
    (i : nat) (file : File.t) :
  processInvoices st = inr r0 ->
  exec r0 events = Some r ->
  selectedFiles st !! i = Some file ->
  Failure i (events_of i events) ->
  processingPromises r !! i
  = Some (Settled (Fulfilled
            [ (lit "fileName", JString (File.name file));
              (lit "invoiceNumber", JString (lit "Error"));
              (lit "companyNumber", JString (lit "Error"));
              (lit "date", JString (lit "Error"));
              (lit "totalAmount", JString (lit "Error")) ]))
  /\ (phase r = Surfaced ->
      extractedData (state r) !! i
      = Some [ (lit "fileName", JString (File.name file));
               (lit "invoiceNumber", JString []);
               (lit "companyNumber", JString (lit "Error"));
               (lit "date", JString (lit "Error"));
               (lit "totalAmount", JString (lit "Error")) ])
  /\ (forall result response,
        truthy (payload result) = true -> ok response = false ->
        Failure i [ReaderLoad i result; ExtractionSettled i (Responded response)])
  /\ (forall events' r',
        exec r0 events' = Some r' ->
        (forall j, j <> i -> events_of j events' = events_of j events) ->
        (forall j, j <> i ->
           processingPromises r' !! j = processingPromises r !! j)
        /\ (phase r = Surfaced -> phase r' = Surfaced ->
            forall j, j <> i ->
              extractedData (state r') !! j = extractedData (state r) !! j)
        /\ (all_settled r = true -> phase r' = Surfaced -> phase r = Surfaced)).
Proof.
  intros Hstart Hex Hfile Hfail.
  pose proof (Invariant_start _ _ Hstart) as Hinv0.
  pose proof (Invariant_exec _ _ _ Hinv0 Hex) as Hinv.
  assert (Hpromise : processingPromises r !! i
                     = Some (Settled (Fulfilled (errorRecord file)))).
  { rewrite (run_promise _ _ _ _ _ _ Hstart Hex Hfile).
    by destruct (Failure_outcome i file _ Hfail) as (_ & _ & ?). }
  split_and!.
  - exact Hpromise.
  - intros Hp. destruct (results_surfaced r Hinv Hp) as [Hall Hs].
    pose proof (sanitizedResults_lookup _ _ i Hs) as Hi.
    rewrite (lookup_values _ _ Hall (inv_not_rejected r Hinv)), Hpromise in Hi.
    exact Hi.
  - intros result response Hp Hok. eapply extraction_throws; [done|].
    by apply not_ok_throws.
  - intros events' r' Hex' Hsame.
    pose proof (Invariant_exec _ _ _ Hinv0 Hex') as Hinv'.
    assert (Hp : forall j, j <> i ->
              processingPromises r' !! j = processingPromises r !! j).
    { intros j Hj. destruct (selectedFiles st !! j) as [file'|] eqn:Hf'.
      - rewrite (run_promise _ _ _ _ _ _ Hstart Hex' Hf').
        rewrite (run_promise _ _ _ _ _ _ Hstart Hex Hf').
        by rewrite Hsame.
      - apply lookup_ge_None_1 in Hf'.
        rewrite !lookup_ge_None_2; [done| |].
        + by rewrite (run_length _ _ _ _ Hstart Hex).
        + by rewrite (run_length _ _ _ _ Hstart Hex'). }
    split_and!.
    + exact Hp.
    + intros Hs Hs' j Hj.
      destruct (results_surfaced r Hinv Hs) as [Hall Hrec].
      destruct (results_surfaced r' Hinv' Hs') as [Hall' Hrec'].
      rewrite (sanitizedResults_lookup _ _ j Hrec), (sanitizedResults_lookup _ _ j Hrec').
      rewrite (lookup_values _ _ Hall (inv_not_rejected r Hinv)).
      rewrite (lookup_values _ _ Hall' (inv_not_rejected r' Hinv')).
      by rewrite (Hp j Hj).
    + intros Hall Hs'.
      destruct (results_surfaced r' Hinv' Hs') as [Hall' Hrec'].
      destruct (results_settled r Hinv Hall) as (_ & _ & ->).
      assert (Hsome : is_Some (sanitizedResults (omap value (processingPromises r)))).
      { apply sanitizedResults_Some. intros j v.
        rewrite (lookup_values _ _ Hall (inv_not_rejected r Hinv)).
        destruct (decide (j = i)) as [->|Hj].
        - rewrite Hpromise. intros [= <-]. by eexists.
        - rewrite <- (Hp j Hj). intros Hv.
          pose proof (sanitizedResults_lookup _ _ j Hrec') as Hj'.
          rewrite (lookup_values _ _ Hall' (inv_not_rejected r' Hinv')) in Hj'.
          destruct (processingPromises r' !! j) as [t|] eqn:Ht; [|done].
          cbn [mbind option_bind] in Hv, Hj'. rewrite Hv in Hj'.
          cbn [mbind option_bind] in Hj'. rewrite <- Hj'.
          apply lookup_lt_is_Some_2.
          rewrite (sanitizedResults_length _ _ Hrec').
          rewrite (length_values _ Hall' (inv_not_rejected r' Hinv')).
          by eapply lookup_lt_Some. }
      by destruct Hsome as [records ->].
Qed.


(** C9. Each of the four paths of the executor resolves the promise: read
    error, missing payload, extraction thrown and caught, extraction
    returned; no step of a task rejects it. In a run no promise is ever
    rejected, so the joint promise is never rejected. The [catch] block is
    entered in one way only: the extraction of some file returned, with an
    invoice number on which the sanitizer throws in the [try] block; no
    failure of a read or of an extraction leads there, and a run in which
    every file fails goes through the [try] block. The batch error is shown
    in the [catch] phase only. A run takes at most two events of each file,
    it is at rest only when every promise is settled, and from every moment
    of it the remaining promises can be resolved. *)
Theorem promises_always_resolve :
  (forall file, onerror file = Settled (Fulfilled (errorRecord file)))
  /\ (forall file result,
        truthy (payload result) = false ->
        onload file result = Settled (Fulfilled (errorRecord file)))
  /\ (forall file p answer exn,
        extractInvoiceData p answer = inr exn ->
        onextracted file p answer = Settled (Fulfilled (errorRecord file)))
  /\ (forall file p answer data,
        extractInvoiceData p answer = inl data ->
        onextracted file p answer = Settled (Fulfilled (withFileName file data)))
  /\ (forall file t e t',
        task_step file t e = Some t' -> is_rejected t' = false /\ work t' < work t)
  /\ (forall R (st : StateOf R) r0 events r,
        processInvoices st = inr r0 ->
        exec r0 events = Some r ->
        (forall t, t ∈ processingPromises r -> is_rejected t = false)
        /\ (forall reason, Promise_all (processingPromises r) <> JointRejected reason)
        /\ (phase r = Crashed ->
            exists i file data,
              selectedFiles st !! i = Some file
              /\ returned (events_of i events) = Some data
              /\ sanitizeInvoiceNumber_call (copied (lit "invoiceNumber") data) = None
              /\ ~ Failure i (events_of i events))
        /\ ((forall i, i < length (selectedFiles st) -> Failure i (events_of i events)) ->
            phase r = Surfaced)
        /\ (error (state r) = criticalMessage -> phase r = Crashed)
        /\ length (List.filter is_file_event events) <= 2 * length (selectedFiles st)
        /\ ((forall e, is_file_event e = true -> step r e = None) ->
            all_settled r = true)
        /\ (exists events' r', exec r events' = Some r' /\ all_settled r' = true)).
Proof.
  split_and!.
  - done.
  - intros file result Hp. unfold onload. by rewrite Hp.
  - intros file p answer exn Hx. unfold onextracted. by rewrite Hx.
  - intros file p answer data Hx. unfold onextracted. by rewrite Hx.
  - intros file t e t' Hts. split.
    + by eapply task_step_not_rejected.
    + by eapply task_step_work.
  - intros R st r0 events r Hstart Hex.
    pose proof (Invariant_exec _ _ _ (Invariant_start _ _ Hstart) Hex) as Hinv.
    pose proof (inv_not_rejected r Hinv) as Hrej.
    split_and!.
    + intros t Ht. rewrite forallb_forall in Hrej.
      apply list_elem_of_In in Ht. specialize (Hrej t Ht).
      by apply negb_true_iff in Hrej.
    + intros reason. rewrite (Promise_all_spec _ Hrej).
      by destruct (forallb is_settled _).
    + intros Hp. destruct (results_crashed r Hinv Hp) as (Hall & _).
      destruct (run_settled _ _ _ _ Hstart Hex Hall)
        as (_ & [(Hs & _)|(_ & _ & i & file & data & Hf & Hret & Hcall)]);
        [congruence|].
      exists i, file, data. split_and!; try done.
      intros Hfail. destruct (Failure_outcome i file _ Hfail) as (Hnone & _).
      congruence.
    + intros Hfail.
      assert (Hall : all_settled r = true).
      { apply forallb_lookup_all. intros i t Ht.
        assert (Hi : i < length (selectedFiles st)).
        { rewrite <- (run_length _ _ _ _ Hstart Hex). by eapply lookup_lt_Some. }
        destruct (lookup_lt_is_Some_2 _ i Hi) as [file Hf].
        rewrite (run_promise _ _ _ _ _ _ Hstart Hex Hf) in Ht.
        destruct (Failure_outcome i file _ (Hfail i Hi)) as (_ & _ & Hte).
        rewrite Hte in Ht. by injection Ht as <-. }
      destruct (run_settled _ _ _ _ Hstart Hex Hall)
        as (_ & [(Hs & _)|(_ & _ & i & file & data & Hf & Hret & _)]); [done|].
      apply lookup_lt_Some in Hf.
      destruct (Failure_outcome i file _ (Hfail i Hf)) as (Hnone & _). congruence.
    + intros Herr. destruct (phase r) eqn:Hp; [|  |done];
        by destruct (inv_error r Hinv ltac:(by rewrite Hp)).
    + pose proof (exec_work _ _ _ Hex) as Hw.
      destruct (processInvoices_files _ _ Hstart) as [_ Hp].
      rewrite Hp, total_work_start in Hw. lia.
    + by apply at_rest_settled.
    + by eapply exec_completes.
Qed.

End Orchestrator.

(** ** The route *)

Lemma NextResponse_json_status payload status reply :
  Route.NextResponse_json payload status = Some reply -> fst reply = status.
Proof.
  unfold Route.NextResponse_json. destruct (_ && _); [|done]. by intros [= <-].
Qed.

(** Whatever else the route finds, when the model endpoint answers with a
    status that is not a success, so does the route. *)
Lemma POST_relays_failure env up :
  Route.upstream env = Some up ->
  ok_status (Route.upstream_status up) = false ->
  ok_status (fst (Route.POST env)) = false.
Proof.
  intros Hup Hok. unfold Route.POST.
  destruct (Route.attempt env) as [reply|] eqn:Ha; [|done].
  revert Ha. unfold Route.attempt.
  destruct (Route.request env) as [body|]; cbn [mbind option_bind]; [|done].
  destruct (_ || _).
  { intros Hr. by rewrite (NextResponse_json_status _ _ _ Hr). }
  destruct (negb (truthy (Route.GEMINI_API_KEY env))).
  { intros Hr. by rewrite (NextResponse_json_status _ _ _ Hr). }
  rewrite Hup. cbn [mbind option_bind]. rewrite Hok. cbn [negb].
  intros Hr. by rewrite (NextResponse_json_status _ _ _ Hr).
Qed.

Lemma served_not_ok env up bodyText :
  Route.upstream env = Some up ->
  ok_status (Route.upstream_status up) = false ->
  ok (served (Route.POST env) bodyText) = false.
Proof. intros. unfold ok, served. simpl. by eapply POST_relays_failure. Qed.

(** ** The scenarios of the specification *)

Example status_429_relayed : status response_429 = 429%N /\ ok response_429 = false.
Proof. split; reflexivity. Qed.

(** "two files, one yields a valid model response, the other's read fails" *)
Example scenario_read_error :
  extractedData results_shown
  = [ {| fileName := lit "a.jpg"; invoiceNumber := lit "1001";
         companyNumber := lit "ABN 12 345 678 901"; date := lit "12/03/2024";
         totalAmount := lit "$1,234.50" |};
      {| fileName := lit "b.jpg"; invoiceNumber := [];
         companyNumber := lit "Error"; date := lit "Error";
         totalAmount := lit "Error" |} ].
Proof. vm_compute. reflexivity. Qed.

(** The same results as they are stored: the object of the first file has
    its properties in the order of the answer, after [fileName]. *)
Example scenario_read_error_stored :
  extractedData (state (after (H := parse_example_A) two_run delivery_read_error))
  = [ [ (lit "fileName", JString (lit "a.jpg"));
        (lit "invoiceNumber", JString (lit "1001"));
        (lit "companyNumber", JString (lit "ABN 12 345 678 901"));
        (lit "totalAmount", JString (lit "$1,234.50"));
        (lit "date", JString (lit "12/03/2024")) ];
      [ (lit "fileName", JString (lit "b.jpg"));
        (lit "invoiceNumber", JString []);
        (lit "companyNumber", JString (lit "Error"));
        (lit "date", JString (lit "Error"));
        (lit "totalAmount", JString (lit "Error")) ] ].
Proof. vm_compute. reflexivity. Qed.

(** "upstream call returns HTTP 429" *)
Example scenario_429 :
  let r := after (H := parse_example_A) two_run delivery_429 in
  processingPromises r !! 1 = Some (Settled (Fulfilled (errorRecord file_b)))
  /\ extractedData (ui r)
     = [ {| fileName := lit "a.jpg"; invoiceNumber := lit "1001";
            companyNumber := lit "ABN 12 345 678 901"; date := lit "12/03/2024";
            totalAmount := lit "$1,234.50" |};
         {| fileName := lit "b.jpg"; invoiceNumber := [];
            companyNumber := lit "Error"; date := lit "Error";
            totalAmount := lit "Error" |} ].
Proof. split; vm_compute; reflexivity. Qed.

(** "model returns N/A for every field" *)
Example scenario_not_available :
  sanitized {| fileName := lit "a.jpg"; invoiceNumber := lit "N/A";
               companyNumber := lit "N/A"; date := lit "N/A";
               totalAmount := lit "N/A" |}
  = {| fileName := lit "a.jpg"; invoiceNumber := [];
       companyNumber := lit "N/A"; date := lit "N/A"; totalAmount := lit "N/A" |}.
Proof. reflexivity. Qed.

(** The model answers with the invoice number as a number: the sanitizer
    throws on it, and the run ends in the [catch] block, without a record
    and with the batch error. *)
Example scenario_number :
  let r := after (H := parse_texts) one_run (delivery_with text_number) in
  exec (H := parse_texts) one_run (delivery_with text_number) = Some r
  /\ processingPromises r = [Settled (Fulfilled (withFileName file_a answer_number))]
  /\ phase r = Crashed
  /\ extractedData (state r) = []
  /\ error (state r) = criticalMessage
  /\ isLoading (state r) = false.
Proof. repeat split; vm_compute; reflexivity. Qed.

(** The model answers with a [fileName] among the keys: the record is
    stored under that name. *)
Example scenario_fileName :
  let r := after (H := parse_texts) one_run (delivery_with text_fileName) in
  exec (H := parse_texts) one_run (delivery_with text_fileName) = Some r
  /\ phase r = Surfaced
  /\ extractedData (state r)
     = [ [ (lit "fileName", JString (lit "other.jpg"));
           (lit "invoiceNumber", JString (lit "1001"));
           (lit "companyNumber", JString (lit "N/A"));
           (lit "totalAmount", JString (lit "N/A"));
           (lit "date", JString (lit "N/A")) ] ].
Proof. repeat split; vm_compute; reflexivity. Qed.

(** ** The theorems at the sample data *)

Lemma processInvoices_results_witness :
  length (selectedFiles two_selected) = 2
  /\ 1 <= 2 <= MAX_FILES
  /\ exists r0,
      processInvoices two_selected = inr r0
      /\ forall events r,
          exec (H := parse_example_A) r0 events = Some r ->
          all_settled r = false ->
          extractedData (state r) = [] /\ isLoading (state r) = true.
Proof.
  assert (H1 : length (selectedFiles two_selected) = 2) by reflexivity.
  assert (H2 : 1 <= 2 <= MAX_FILES) by (unfold MAX_FILES; lia).
  split; [exact H1|]. split; [exact H2|].
  destruct (processInvoices_results (H := parse_example_A) two_selected 2 H1 H2)
    as (r0 & Hstart & Hall & _).
  exists r0. split; [exact Hstart|].
  intros events r Hex Hpending.
  destruct (Hall events r Hex) as (Hnone & _).
  exact (Hnone Hpending).
Defined.

(** C1, the statement of the specification fails. With one file selected,
    whose read and extraction succeed: when the answer of the model has the
    invoice number as a number, the completed run has no record; and when
    the answer has a [fileName] among its keys, the record carries that name
    and not the name of the file. *)
Lemma results_counterexample :
  1 <= length (selectedFiles one_selected) <= MAX_FILES
  /\ ~ results_as_stated (H := parse_texts) one_selected (delivery_with text_number)
  /\ ~ results_as_stated (H := parse_texts) one_selected (delivery_with text_fileName).
Proof.
  split; [vm_compute; lia|]. split.
  - intros Hstated.
    assert (Hex : exec (H := parse_texts) one_run (delivery_with text_number)
                  = Some (after (H := parse_texts) one_run (delivery_with text_number)))
      by (vm_compute; reflexivity).
    destruct (Hstated one_run _ eq_refl Hex) as [Hlen _]; [vm_compute; reflexivity|].
    revert Hlen. vm_compute. discriminate.
  - intros Hstated.
    assert (Hex : exec (H := parse_texts) one_run (delivery_with text_fileName)
                  = Some (after (H := parse_texts) one_run (delivery_with text_fileName)))
      by (vm_compute; reflexivity).
    destruct (Hstated one_run _ eq_refl Hex) as [_ Hname]; [vm_compute; reflexivity|].
    destruct (Hname 0 file_a eq_refl) as (record & Hrec & Hget).
    revert Hrec Hget. vm_compute. intros [= <-]. discriminate.
Qed.

Lemma failure_is_per_file_witness :
  let r := after (H := parse_example_A) two_run delivery_429 in
  processInvoices two_selected = inr two_run
  /\ exec (H := parse_example_A) two_run delivery_429 = Some r
  /\ selectedFiles two_selected !! 1 = Some file_b
  /\ Failure (H := parse_example_A) 1 (events_of 1 delivery_429)
  /\ processingPromises r !! 1
     = Some (Settled (Fulfilled
               [ (lit "fileName", JString (lit "b.jpg"));
                 (lit "invoiceNumber", JString (lit "Error"));
                 (lit "companyNumber", JString (lit "Error"));
                 (lit "date", JString (lit "Error"));
                 (lit "totalAmount", JString (lit "Error")) ])).
Proof.
  intros r.
  assert (H1 : processInvoices two_selected = inr two_run) by reflexivity.
  assert (H2 : exec (H := parse_example_A) two_run delivery_429 = Some r)
    by (vm_compute; reflexivity).
  assert (H3 : selectedFiles two_selected !! 1 = Some file_b) by reflexivity.
  assert (H4 : Failure (H := parse_example_A) 1 (events_of 1 delivery_429)).
  { exact (extraction_throws (H := parse_example_A) 1 dataURL (Responded response_429)
             (ServerExtractionFailed (response_text response_429))
             eq_refl eq_refl). }
  split; [exact H1|]. split; [exact H2|]. split; [exact H3|]. split; [exact H4|].
  exact (proj1 (failure_is_per_file (H := parse_example_A)
                  two_selected two_run r delivery_429 1 file_b H1 H2 H3 H4)).
Defined.


Lemma promises_always_resolve_witness :
  let r := after (H := parse_example_A) two_run delivery_429 in
  processInvoices two_selected = inr two_run
  /\ exec (H := parse_example_A) two_run delivery_429 = Some r
  /\ (forall reason, Promise_all (processingPromises r) <> JointRejected reason)
  /\ (error (state r) = criticalMessage -> phase r = Crashed).
Proof.
  intros r.
  assert (H1 : processInvoices two_selected = inr two_run) by reflexivity.
  assert (H2 : exec (H := parse_example_A) two_run delivery_429 = Some r)
    by (vm_compute; reflexivity).
  split; [exact H1|]. split; [exact H2|].
  destruct (promises_always_resolve (H := parse_example_A))
    as (_ & _ & _ & _ & _ & Hrun).
  destruct (Hrun _ two_selected two_run delivery_429 r H1 H2)
    as (_ & Hj & _ & _ & He & _).
  split; [exact Hj|exact He].
Defined.


(** * More of the code *)

(** ** Selection: what the handlers keep and undo *)

Lemma remove_index_take_drop {A} i (l : list A) :
  remove_index i l = take i l ++ drop (S i) l.
Proof.
  revert i. induction l as [|x l IH]; intros [|i]; simpl; try done.
  by rewrite IH.
Qed.

Lemma remove_index_sublist {A} i (l : list A) : sublist (remove_index i l) l.
Proof.
  revert i. induction l as [|x l IH]; intros [|i]; simpl.
  - constructor.
  - constructor.
  - by apply sublist_cons.
  - apply sublist_skip, IH.
Qed.

Lemma remove_index_distinct i l :
  distinct_files l -> distinct_files (remove_index i l).
Proof.
  unfold distinct_files. intros Hl. eapply sublist_NoDup; [exact Hl|].
  apply fmap_sublist, remove_index_sublist.
Qed.

Lemma handleFileSelection_distinct {R} files (st : StateOf R) :
  distinct_files (selectedFiles st) ->
  distinct_choice (Choose files) ->
  distinct_files (selectedFiles (handleFileSelection files st)).
Proof.
  intros Hst Hc. destruct files as [chosen|]; [|done].
  rewrite handleFileSelection_selected. destruct (MAX_FILES <? _); [done|].
  by apply filesToAdd_distinct.
Qed.

(** X2. Whatever the user chooses and removes, as long as no chosen batch
    holds two files with the same name and size, a selection without such a
    pair stays without one. *)
Theorem selection_stays_distinct (st : State) (actions : list Action) :
  distinct_files (selectedFiles st) ->
  Forall distinct_choice actions ->
  distinct_files (selectedFiles (run_actions st actions)).
Proof.
  intros Hst. unfold run_actions.
  induction actions as [|a actions IH] using rev_ind; intros Hall; [done|].
  apply Forall_app in Hall as [Hall Ha]. rewrite Forall_singleton in Ha.
  rewrite foldl_snoc. specialize (IH Hall). destruct a as [files|index]; cbn [act].
  - by apply handleFileSelection_distinct.
  - by apply remove_index_distinct.
Qed.

Lemma selection_stays_distinct_witness :
  let actions := [Choose (Some [file_a; file_b]); Remove 0; Choose (Some [file_a; file_b])] in
  distinct_files (selectedFiles initialState)
  /\ Forall distinct_choice actions
  /\ distinct_files (selectedFiles (run_actions initialState actions)).
Proof.
  intros actions.
  assert (H1 : distinct_files (selectedFiles initialState)) by constructor.
  assert (H2 : Forall distinct_choice actions).
  { repeat constructor; unfold distinct_choice, distinct_files; by_evaluation. }
  split; [exact H1|]. split; [exact H2|].
  exact (selection_stays_distinct initialState actions H1 H2).
Defined.

Lemma filesToAdd_none selected chosen :
  (forall f, f ∈ chosen -> ~ new_file selected f) ->
  filesToAdd selected chosen = [].
Proof.
  intros Hold. destruct (filesToAdd selected chosen) as [|g gs] eqn:Hadd; [done|].
  assert (Hg : g ∈ filesToAdd selected chosen) by (rewrite Hadd; by left).
  apply elem_of_filesToAdd in Hg as [Hin Hnew]. by destruct (Hold g Hin).
Qed.

(** X3. The change event changes nothing at all, not even an error message
    shown earlier, when there is no file list, when the list is empty, and
    when the cap check passes and every chosen file is already selected. *)
Theorem handleFileSelection_no_change (files : option (list File.t)) (st : State) :
  files = None
  \/ files = Some []
  \/ (exists chosen,
        files = Some chosen
        /\ length (selectedFiles st) + length chosen <= MAX_FILES
        /\ forall f, f ∈ chosen -> ~ new_file (selectedFiles st) f) ->
  handleFileSelection files st = st.
Proof.
  intros [->|[->|(chosen & -> & Hcap & Hold)]]; [done|done|].
  unfold handleFileSelection. destruct chosen as [|f fs]; [done|].
  apply Nat.ltb_ge in Hcap. rewrite Hcap.
  by rewrite (filesToAdd_none _ _ Hold).
Qed.

Lemma handleFileSelection_no_change_witness :
  (exists chosen,
      Some [file_b; file_a] = Some chosen
      /\ length (selectedFiles stale_error) + length chosen <= MAX_FILES
      /\ forall f, f ∈ chosen -> ~ new_file (selectedFiles stale_error) f)
  /\ error (handleFileSelection (Some [file_b; file_a]) stale_error)
     = lit "No data to export.".
Proof.
  assert (H : exists chosen,
      Some [file_b; file_a] = Some chosen
      /\ length (selectedFiles stale_error) + length chosen <= MAX_FILES
      /\ forall f, f ∈ chosen -> ~ new_file (selectedFiles stale_error) f).
  { exists [file_b; file_a]. split; [reflexivity|]. split; [vm_compute; lia|].
    intros f Hf Hnew. apply Hnew. clear Hnew.
    apply elem_of_cons in Hf as [->|Hf]; [by_evaluation|].
    apply elem_of_cons in Hf as [->|Hf]; [by_evaluation|].
    by apply elem_of_nil in Hf. }
  split; [exact H|].
  rewrite (handleFileSelection_no_change (Some [file_b; file_a]) stale_error
             (or_intror (or_intror H))).
  reflexivity.
Defined.

(** X4. Choosing the same files a second time never changes the selection:
    the second call adds nothing, whether it passes the cap check or not. *)
Theorem handleFileSelection_twice (files : option (list File.t)) (st : State) :
  selectedFiles (handleFileSelection files (handleFileSelection files st))
  = selectedFiles (handleFileSelection files st).
Proof.
  destruct files as [chosen|]; [|done].
  rewrite (handleFileSelection_selected chosen (handleFileSelection (Some chosen) st)).
  rewrite !(handleFileSelection_selected chosen st).
  destruct (MAX_FILES <? length (selectedFiles st) + length chosen) eqn:Hfirst;
    cbn beta iota.
  - by rewrite Hfirst.
  - rewrite (filesToAdd_none
               (selectedFiles st ++ filesToAdd (selectedFiles st) chosen) chosen);
      [rewrite app_nil_r; destruct (MAX_FILES <? length (_ ++ _) + _); reflexivity|].
    intros f Hf Hnew. apply Hnew. clear Hnew.
    rewrite fmap_app. apply elem_of_app.
    destruct (decide (File.key f ∈ File.key <$> selectedFiles st)) as [Hin|Hout].
    + by left.
    + right. apply list_elem_of_fmap. exists f. split; [done|].
      by apply elem_of_filesToAdd.
Qed.

(** X5. [removeFile] takes out the file at the given position and nothing
    else, keeping the order of the others; with a position past the end it
    leaves the selection as it is. In both cases it clears the error message
    and leaves the results and the busy flag alone. *)
Theorem removeFile_at (index : nat) (st : State) :
  let st' := removeFile index st in
  selectedFiles st' = take index (selectedFiles st) ++ drop (S index) (selectedFiles st)
  /\ (index < length (selectedFiles st) ->
      length (selectedFiles st') = length (selectedFiles st) - 1
      /\ (forall j, j < index -> selectedFiles st' !! j = selectedFiles st !! j)
      /\ (forall j, index <= j -> selectedFiles st' !! j = selectedFiles st !! S j))
  /\ (length (selectedFiles st) <= index -> selectedFiles st' = selectedFiles st)
  /\ error st' = []
  /\ extractedData st' = extractedData st
  /\ isLoading st' = isLoading st.
Proof.
  intros st'. subst st'. unfold removeFile. cbn [selectedFiles setError setSelectedFiles
    error extractedData isLoading].
  rewrite remove_index_take_drop. split_and!; try done.
  - intros Hi. split_and!.
    + rewrite length_app, length_take, length_drop. lia.
    + intros j Hj. rewrite lookup_app_l by (rewrite length_take; lia).
      by rewrite lookup_take_lt.
    + intros j Hj. rewrite lookup_app_r by (rewrite length_take; lia).
      rewrite length_take, lookup_drop. f_equal. lia.
  - intros Hi. rewrite take_ge by done. rewrite drop_ge by lia. by rewrite app_nil_r.
Qed.

Lemma removeFile_at_witness :
  0 < length (selectedFiles two_selected)
  /\ 5 >= length (selectedFiles two_selected)
  /\ selectedFiles (removeFile 0 two_selected) = [file_b]
  /\ selectedFiles (removeFile 5 two_selected) = [file_a; file_b].
Proof.
  assert (H1 : 0 < length (selectedFiles two_selected)) by (vm_compute; lia).
  assert (H2 : length (selectedFiles two_selected) <= 5) by (vm_compute; lia).
  split; [exact H1|]. split; [exact H2|]. split.
  - destruct (removeFile_at 0 two_selected) as (Hsel & _). rewrite Hsel. reflexivity.
  - destruct (removeFile_at 5 two_selected) as (_ & _ & Hout & _). exact (Hout H2).
Defined.

(** X6. Removing the file that was just chosen restores the selection: a
    new file chosen alone, within the cap, lands at the end of the
    selection, and taking out the last position gives back the files
    selected before. *)
Theorem removeFile_undoes_choice (f : File.t) (st : State) :
  new_file (selectedFiles st) f ->
  length (selectedFiles st) < MAX_FILES ->
  selectedFiles (handleFileSelection (Some [f]) st) = selectedFiles st ++ [f]
  /\ selectedFiles (handleFileSelection (Some [f]) st) !! length (selectedFiles st)
     = Some f
  /\ selectedFiles (removeFile (length (selectedFiles st))
                      (handleFileSelection (Some [f]) st))
     = selectedFiles st.
Proof.
  intros Hnew Hcap.
  assert (Hadd : filesToAdd (selectedFiles st) [f] = [f]).
  { unfold filesToAdd. cbn [List.filter].
    destruct (existsb _ (selectedFiles st)) eqn:He; [|done].
    apply existsb_same_key in He. by destruct Hnew. }
  assert (Hchosen : selectedFiles (handleFileSelection (Some [f]) st)
                    = selectedFiles st ++ [f]).
  { rewrite handleFileSelection_selected. cbn [length].
    replace (MAX_FILES <? length (selectedFiles st) + 1) with false
      by (symmetry; apply Nat.ltb_ge; lia).
    by rewrite Hadd. }
  split_and!.
  - exact Hchosen.
  - rewrite Hchosen. by apply list_lookup_middle.
  - unfold removeFile. cbn [selectedFiles setError setSelectedFiles].
    rewrite Hchosen, remove_index_take_drop.
    rewrite take_app_length. rewrite drop_app_ge by lia.
    replace (S (length (selectedFiles st)) - length (selectedFiles st)) with 1 by lia.
    cbn [drop]. by rewrite app_nil_r.
Qed.

Lemma removeFile_undoes_choice_witness :
  new_file (selectedFiles nine_selected) file_a
  /\ length (selectedFiles nine_selected) < MAX_FILES
  /\ selectedFiles (handleFileSelection (Some [file_a]) nine_selected) !! 9
     = Some file_a
  /\ selectedFiles (removeFile 9 (handleFileSelection (Some [file_a]) nine_selected))
     = selectedFiles nine_selected.
Proof.
  assert (H1 : new_file (selectedFiles nine_selected) file_a)
    by (unfold new_file, not; by_evaluation).
  assert (H2 : length (selectedFiles nine_selected) < MAX_FILES) by (vm_compute; lia).
  split; [exact H1|]. split; [exact H2|].
  exact (proj2 (removeFile_undoes_choice file_a nine_selected H1 H2)).
Defined.

(** ** Sanitizer: what it leaves alone *)

Lemma filter_id_iff {A} (p : A -> bool) (l : list A) :
  List.filter p l = l <-> forallb p l = true.
Proof.
  induction l as [|x l IH]; simpl; [done|].
  destruct (p x) eqn:Hx; simpl.
  - rewrite <- IH. split; [by intros [= ?]|by intros ->].
  - split; [|done]. intros Heq.
    pose proof (filter_length_le p l) as Hlen. rewrite Heq in Hlen. simpl in Hlen. lia.
Qed.

Lemma sanitizeInvoiceNumber_again raw :
  sanitizeInvoiceNumber (Some (sanitizeInvoiceNumber raw)) = sanitizeInvoiceNumber raw.
Proof.
  unfold sanitizeInvoiceNumber at 1. cbn [or_empty].
  rewrite replace_nondigits_filter. apply filter_id_iff.
  apply sanitizeInvoiceNumber_digits_only.
Qed.

(** X7. [sanitizeInvoiceNumber] returns its input unchanged exactly when the
    input consists of decimal digits only. *)
Theorem sanitizeInvoiceNumber_fixes_digits (s : jsstring) :
  sanitizeInvoiceNumber (Some s) = s <-> digits_only s = true.
Proof.
  unfold sanitizeInvoiceNumber, digits_only. cbn [or_empty].
  rewrite replace_nondigits_filter. apply filter_id_iff.
Qed.

Lemma sanitizeInvoiceNumber_fixes_digits_witness :
  digits_only (lit "20240312") = true
  /\ sanitizeInvoiceNumber (Some (lit "20240312")) = lit "20240312".
Proof.
  assert (H : digits_only (lit "20240312") = true) by reflexivity.
  split; [exact H|].
  exact (proj2 (sanitizeInvoiceNumber_fixes_digits (lit "20240312")) H).
Defined.

(** X8. Sanitizing is idempotent: the sanitizer applied to its own output,
    and the sanitizing pass of [processInvoices] applied to a sanitized
    record, change nothing; and the output is never longer than the input. *)
Theorem sanitized_idempotent :
  (forall raw, sanitizeInvoiceNumber (Some (sanitizeInvoiceNumber raw))
               = sanitizeInvoiceNumber raw)
  /\ (forall r, sanitized (sanitized r) = sanitized r)
  /\ (forall s, length (sanitizeInvoiceNumber (Some s)) <= length s).
Proof.
  assert (Hidem : forall raw, sanitizeInvoiceNumber (Some (sanitizeInvoiceNumber raw))
                              = sanitizeInvoiceNumber raw).
  { intros raw. apply sanitizeInvoiceNumber_again. }
  split_and!.
  - exact Hidem.
  - intros r. unfold sanitized at 1. cbn [fileName invoiceNumber companyNumber date
      totalAmount sanitized]. by rewrite Hidem.
  - intros s. unfold sanitizeInvoiceNumber. cbn [or_empty].
    rewrite replace_nondigits_filter. apply filter_length_le.
Qed.

(** X9. The sanitizer works code unit by code unit: the digits of a
    concatenation are the digits of its parts, so a run of non-digits across
    the seam is dropped like any other. *)
Theorem sanitizeInvoiceNumber_app (s t : jsstring) :
  sanitizeInvoiceNumber (Some (s ++ t))
  = sanitizeInvoiceNumber (Some s) ++ sanitizeInvoiceNumber (Some t).
Proof.
  unfold sanitizeInvoiceNumber. cbn [or_empty].
  rewrite !replace_nondigits_filter. unfold digit_subsequence.
  apply List.filter_app.
Qed.

(** ** The reader: the payload of a data URL *)

Lemma split_without sep s : sep ∉ s -> split sep s = [s].
Proof.
  induction s as [|c t IH]; [done|].
  rewrite not_elem_of_cons. intros [Hc Ht]. cbn [split].
  destruct (N.eqb_spec c sep) as [->|_]; [done|]. by rewrite (IH Ht).
Qed.

Lemma split_at_first sep prefix rest :
  sep ∉ prefix -> split sep (prefix ++ sep :: rest) = prefix :: split sep rest.
Proof.
  induction prefix as [|c t IH]; intros Hp.
  - cbn [app split]. by rewrite N.eqb_refl.
  - apply not_elem_of_cons in Hp as [Hc Ht]. cbn [app split].
    destruct (N.eqb_spec c sep) as [->|_]; [done|]. by rewrite (IH Ht).
Qed.

(** X10. The payload taken from a data URL is what follows its first comma:
    for [prefix,base64] with no comma in either part it is [base64], and a
    result without a comma, or no result, has no payload. *)
Theorem payload_of_data_url :
  (forall prefix base64,
      comma ∉ prefix -> comma ∉ base64 ->
      payload (Some (prefix ++ comma :: base64)) = Some base64)
  /\ (forall result, comma ∉ result -> payload (Some result) = None)
  /\ payload None = None.
Proof.
  split_and!.
  - intros prefix base64 Hp Hb. unfold payload. cbn [mbind option_bind].
    by rewrite (split_at_first _ _ _ Hp), (split_without _ _ Hb).
  - intros result Hr. unfold payload. cbn [mbind option_bind].
    by rewrite (split_without _ _ Hr).
  - done.
Qed.

Lemma payload_of_data_url_witness :
  (comma ∉ lit "data:image/jpeg;base64")
  /\ (comma ∉ lit "/9j/4AAQSkZJRg")
  /\ payload dataURL = Some (lit "/9j/4AAQSkZJRg").
Proof.
  assert (H1 : comma ∉ lit "data:image/jpeg;base64") by (unfold not; by_evaluation).
  assert (H2 : comma ∉ lit "/9j/4AAQSkZJRg") by (unfold not; by_evaluation).
  split; [exact H1|]. split; [exact H2|].
  exact (proj1 payload_of_data_url _ _ H1 H2).
Defined.

(** ** The gateway: when an extraction returns *)

Lemma first_text_chain result :
  mbind text (mbind head (mbind parts (mbind content (mbind head (candidates result)))))
  = first_text result.
Proof.
  unfold first_text. destruct result as [cands].
  destruct cands as [[|cand cs]|]; try done. destruct cand as [ct].
  destruct ct as [[ps]|]; try done. destruct ps as [[|part ps']|]; try done.
  by destruct part as [[txt|]].
Qed.

(** X12. [extractInvoiceData] returns exactly when the response is a
    success, its body is JSON, the first part of the first candidate has a
    non-empty text and [JSON.parse] accepts that text; what it returns is
    what [JSON.parse] gives. In every other case it throws. *)
Theorem extractInvoiceData_returns `{!JSON} (p : jsstring) (answer : FetchOutcome)
    (data : json) :
  extractInvoiceData p answer = inl data
  <-> exists response result txt,
        answer = Responded response
        /\ ok response = true
        /\ response_json response = Some result
        /\ first_text result = Some txt
        /\ txt <> []
        /\ JSON_parse txt = Some data.
Proof.
  unfold extractInvoiceData. split.
  - destruct answer as [|response]; [done|].
    destruct (ok response) eqn:Hok; [|done]. cbn [negb].
    destruct (response_json response) as [result|] eqn:Hj; [|done].
    cbv zeta. rewrite first_text_chain.
    destruct (first_text result) as [[|c txt]|] eqn:Ht; try done. cbn [truthy or_empty].
    destruct (JSON_parse (c :: txt)) as [d|] eqn:Hparse; [|done].
    intros [= <-]. by exists response, result, (c :: txt).
  - intros (response & result & txt & -> & Hok & Hj & Ht & Hne & Hparse).
    rewrite Hok, Hj. cbn [negb]. cbv zeta. rewrite first_text_chain, Ht.
    destruct txt as [|c txt]; [done|]. cbn [truthy or_empty]. by rewrite Hparse.
Qed.

Lemma extractInvoiceData_returns_witness :
  exists data,
    JSON_parse (JSON := parse_example_A) (lit "(Example A)") = Some data
    /\ extractInvoiceData (H := parse_example_A) (lit "/9j/4AAQSkZJRg")
         (Responded response_A) = inl data.
Proof.
  eexists. split; [reflexivity|].
  apply (proj2 (extractInvoiceData_returns (H := parse_example_A) _ _ _)).
  exists response_A. eexists. exists (lit "(Example A)").
  split; [reflexivity|]. split; [reflexivity|]. split; [reflexivity|].
  split; [reflexivity|]. split; [discriminate|reflexivity].
Defined.

(** ** The route: its statuses *)

Lemma NextResponse_json_Some payload status reply :
  Route.NextResponse_json payload status = Some reply -> reply = (status, payload).
Proof.
  unfold Route.NextResponse_json. destruct (_ && _ && _); [|done]. by intros [= <-].
Qed.

Lemma error_reply message status :
  ok_status status = false ->
  let reply := match Route.NextResponse_json (Route.ErrorPayload message) status with
               | Some reply => reply
               | None => (500%N, Route.ErrorPayload (lit "Server exception"))
               end in
  ok_status (fst reply) = false /\ exists msg, snd reply = Route.ErrorPayload msg.
Proof.
  intros Hok reply. subst reply.
  destruct (Route.NextResponse_json _ status) as [reply|] eqn:Hr.
  - apply NextResponse_json_Some in Hr as ->. cbn [fst snd]. eauto.
  - cbn [fst snd]. eauto.
Qed.

(** Either the route relays the body of the model endpoint with status 200,
    or it answers an error payload with a status that is not a success. *)
Lemma POST_cases env :
  (exists result, Route.POST env = (200%N, Route.ResultPayload result) /\ accepted env result)
  \/ (ok_status (fst (Route.POST env)) = false
      /\ exists msg, snd (Route.POST env) = Route.ErrorPayload msg).
Proof.
  unfold Route.POST, Route.attempt, accepted.
  destruct (Route.request env) as [body|]; cbn [mbind option_bind];
    [|right; cbn [fst snd]; eauto].
  destruct (truthy (Route.base64ImageData body)) eqn:Hb; cbn [negb orb];
    [|right; by apply error_reply].
  destruct (truthy (Route.prompt body)) eqn:Hp; cbn [negb orb];
    [|right; by apply error_reply].
  destruct (truthy (Route.GEMINI_API_KEY env)) eqn:Hk; cbn [negb];
    [|right; by apply error_reply].
  destruct (Route.upstream env) as [up|]; cbn [mbind option_bind];
    [|right; cbn [fst snd]; eauto].
  destruct (ok_status (Route.upstream_status up)) eqn:Hok; cbn [negb];
    [|right; by apply error_reply].
  destruct (Route.upstream_json up) as [result|] eqn:Hj; cbn [mbind option_bind];
    [|right; cbn [fst snd]; eauto].
  left. exists result. split; [reflexivity|]. by exists body, up.
Qed.

(** X13. The route answers 200 exactly when the request body parses and has
    a non-empty image and prompt, the API key is set, and the model endpoint
    answers a success with a JSON body; it then relays that body unchanged.
    No other reply of the route is a success. *)
Theorem POST_success (env : Route.Env) :
  (forall result,
      Route.POST env = (200%N, Route.ResultPayload result) <-> accepted env result)
  /\ (ok_status (fst (Route.POST env)) = true ->
      exists relayed, Route.POST env = (200%N, Route.ResultPayload relayed)).
Proof.
  destruct (POST_cases env) as [(relayed & Hpost & Hacc)|(Hok & msg & Hmsg)].
  - split; [|by exists relayed].
    intros result. rewrite Hpost. split.
    + by intros [= <-].
    + intros Hacc'. destruct Hacc as (b1 & u1 & _ & _ & _ & _ & Hu1 & _ & Hj1).
      destruct Hacc' as (b2 & u2 & _ & _ & _ & _ & Hu2 & _ & Hj2).
      rewrite Hu1 in Hu2. injection Hu2 as <-. rewrite Hj1 in Hj2. by injection Hj2 as <-.
  - split; [|congruence].
    intros result. split.
    + intros Hpost. rewrite Hpost in Hmsg. done.
    + intros Hacc. exfalso. revert Hok.
      destruct Hacc as (body & up & Hr & Hb & Hp & Hk & Hu & Hs & Hj).
      unfold Route.POST, Route.attempt. rewrite Hr. cbn [mbind option_bind].
      rewrite Hb, Hp, Hk, Hu. cbn [negb orb mbind option_bind]. rewrite Hs, Hj. done.
Qed.

Lemma POST_success_witness :
  exists relayed,
    ok_status (fst (Route.POST env_A)) = true
    /\ Route.POST env_A = (200%N, Route.ResultPayload relayed).
Proof.
  assert (H : ok_status (fst (Route.POST env_A)) = true) by reflexivity.
  destruct (proj2 (POST_success env_A) H) as [relayed Hr].
  exists relayed. split; [exact H|exact Hr].
Defined.

(** X14. The route checks the request before the key and the key before it
    calls the model endpoint: a body that does not parse is answered 500, a
    body without image or prompt 400, and a missing API key 500, each
    whatever the model endpoint would answer. *)
Theorem POST_rejections (env : Route.Env) :
  (Route.request env = None ->
   Route.POST env = (500%N, Route.ErrorPayload (lit "Server exception")))
  /\ (forall body,
        Route.request env = Some body ->
        truthy (Route.base64ImageData body) = false
        \/ truthy (Route.prompt body) = false ->
        Route.POST env
        = (400%N, Route.ErrorPayload (lit "Missing base64ImageData or prompt")))
  /\ (forall body,
        Route.request env = Some body ->
        truthy (Route.base64ImageData body) = true ->
        truthy (Route.prompt body) = true ->
        truthy (Route.GEMINI_API_KEY env) = false ->
        Route.POST env
        = (500%N, Route.ErrorPayload (lit "Server misconfigured: missing GEMINI_API_KEY"))).
Proof.
  unfold Route.POST, Route.attempt. split_and!.
  - by intros ->.
  - intros body -> Hmissing. cbn [mbind option_bind].
    by destruct Hmissing as [-> | ->]; [|rewrite orb_true_r].
  - intros body -> Hb Hp Hk. cbn [mbind option_bind]. by rewrite Hb, Hp, Hk.
Qed.

Lemma POST_rejections_witness :
  Route.request env_no_key = Route.request env_429
  /\ truthy (Route.GEMINI_API_KEY env_no_key) = false
  /\ fst (Route.POST env_no_key) = 500%N.
Proof.
  assert (Hk : truthy (Route.GEMINI_API_KEY env_no_key) = false) by reflexivity.
  split; [reflexivity|]. split; [exact Hk|].
  destruct (POST_rejections env_no_key) as (_ & _ & Hkey).
  rewrite (Hkey _ eq_refl eq_refl eq_refl Hk). reflexivity.
Defined.

Lemma NextResponse_json_status_valid payload status reply :
  Route.NextResponse_json payload status = Some reply ->
  (200 <= status <= 599)%N /\ Route.null_body_status status = false.
Proof.
  unfold Route.NextResponse_json.
  destruct ((200 <=? status)%N && (status <=? 599)%N && negb (Route.null_body_status status))
    eqn:Hv; [|done].
  intros _. rewrite !andb_true_iff, negb_true_iff in Hv.
  destruct Hv as [[H1 H2] H3]. apply N.leb_le in H1, H2. done.
Qed.

(** X15. Whatever status the model endpoint sends, the status of the route's
    reply is one a response with a body can have (200 to 599 and none of
    101, 103, 204, 205, 304): it is 200, 400, 500, or the status of the
    model endpoint when that is not a success. *)
Theorem POST_status_valid (env : Route.Env) :
  let s := fst (Route.POST env) in
  (200 <= s <= 599)%N
  /\ Route.null_body_status s = false
  /\ (s = 200%N \/ s = 400%N \/ s = 500%N
      \/ exists up, Route.upstream env = Some up
                    /\ s = Route.upstream_status up /\ ok_status s = false).
Proof.
  cbv zeta. unfold Route.POST.
  destruct (Route.attempt env) as [reply|] eqn:Ha; cbn [fst];
    [|split_and!; [lia|lia|done|auto]].
  revert Ha. unfold Route.attempt.
  destruct (Route.request env) as [body|]; cbn [mbind option_bind]; [|done].
  assert (Hconst : forall payload status,
             status = 400%N \/ status = 500%N \/ status = 200%N ->
             Route.NextResponse_json payload status = Some reply ->
             (200 <= fst reply <= 599)%N /\ Route.null_body_status (fst reply) = false
             /\ (fst reply = 200%N \/ fst reply = 400%N \/ fst reply = 500%N
                 \/ exists up, Route.upstream env = Some up
                      /\ fst reply = Route.upstream_status up
                      /\ ok_status (fst reply) = false)).
  { intros payload status Hs Hr.
    pose proof (NextResponse_json_status_valid _ _ _ Hr) as [Hrange Hnull].
    apply NextResponse_json_Some in Hr as ->. cbn [fst].
    split_and!; [lia|lia|done|]. destruct Hs as [-> | [-> | ->]]; auto. }
  destruct (_ || _); [apply Hconst; auto|].
  destruct (negb (truthy _)); [apply Hconst; auto|].
  destruct (Route.upstream env) as [up|]; cbn [mbind option_bind]; [|done].
  destruct (ok_status (Route.upstream_status up)) eqn:Hok; cbn [negb].
  - destruct (Route.upstream_json up); cbn [mbind option_bind]; [|done].
    apply Hconst; auto.
  - intros Hr. pose proof (NextResponse_json_status_valid _ _ _ Hr) as [Hrange Hnull].
    apply NextResponse_json_Some in Hr as ->. cbn [fst].
    split_and!; [lia|lia|done|]. right; right; right. by exists up.
Qed.

Lemma extractInvoiceData_ok `{!JSON} p response result :
  ok response = true ->
  response_json response = Some result ->
  extractInvoiceData p (Responded response)
  = match first_text result with
    | Some (c :: txt) =>
        match JSON_parse (c :: txt) with
        | Some data => inl data
        | None => inr SyntaxError
        end
    | _ => inr NoStructuredResult
    end.
Proof.
  intros Hok Hj. unfold extractInvoiceData. rewrite Hok, Hj. cbn [negb]. cbv zeta.
  rewrite first_text_chain. by destruct (first_text result) as [[|c txt]|].
Qed.

(** X16. Client and route together: an extraction sent through the route
    returns fields exactly when the route has all it needs, the model
    endpoint answers a success whose first candidate text is non-empty, and
    [JSON.parse] accepts that text. When the route does not relay a body of
    the model endpoint (bad request, missing key, failed or unreadable
    upstream answer), the extraction throws with the reply's text. *)
Theorem extraction_through_route `{!JSON} (env : Route.Env) (p bodyText : jsstring) :
  let answer := Responded (served (Route.POST env) bodyText) in
  (forall data,
      extractInvoiceData p answer = inl data
      <-> exists result txt,
            accepted env result /\ first_text result = Some txt
            /\ txt <> [] /\ JSON_parse txt = Some data)
  /\ ((forall result, ~ accepted env result) ->
      extractInvoiceData p answer = inr (ServerExtractionFailed bodyText)).
Proof.
  cbv zeta.
  destruct (POST_cases env) as [(relayed & Hpost & Hacc)|(Hok & msg & Hmsg)].
  - assert (Hex : extractInvoiceData p (Responded (served (Route.POST env) bodyText))
                  = match first_text relayed with
                    | Some (c :: txt) =>
                        match JSON_parse (c :: txt) with
                        | Some data => inl data
                        | None => inr SyntaxError
                        end
                    | _ => inr NoStructuredResult
                    end).
    { apply extractInvoiceData_ok; by rewrite Hpost. }
    split.
    + intros data. rewrite Hex. split.
      * destruct (first_text relayed) as [[|c txt]|] eqn:Ht; try done.
        destruct (JSON_parse (c :: txt)) as [d|] eqn:Hparse; [|done].
        intros [= <-]. by exists relayed, (c :: txt).
      * intros (result & txt & Hacc' & Ht & Hne & Hparse).
        assert (result = relayed) as ->.
        { destruct Hacc as (b1 & u1 & _ & _ & _ & _ & Hu1 & _ & Hj1).
          destruct Hacc' as (b2 & u2 & _ & _ & _ & _ & Hu2 & _ & Hj2).
          rewrite Hu1 in Hu2. injection Hu2 as <-. rewrite Hj1 in Hj2.
          by injection Hj2 as <-. }
        rewrite Ht. destruct txt as [|c txt]; [done|]. by rewrite Hparse.
    + intros Hnone. by destruct (Hnone relayed).
  - assert (Hthrow : extractInvoiceData p (Responded (served (Route.POST env) bodyText))
                     = inr (ServerExtractionFailed bodyText)).
    { by rewrite not_ok_throws. }
    split; [|done].
    intros data. rewrite Hthrow. split; [done|].
    intros (result & txt & Hacc & _). exfalso.
    destruct (POST_cases env) as [(relayed & Hpost & _)|_].
    + rewrite Hpost in Hmsg. done.
    + revert Hok. destruct Hacc as (body & up & Hr & Hb & Hp & Hk & Hu & Hs & Hj).
      unfold Route.POST, Route.attempt. rewrite Hr. cbn [mbind option_bind].
      rewrite Hb, Hp, Hk, Hu. cbn [negb orb mbind option_bind]. rewrite Hs, Hj. done.
Qed.

Lemma extraction_through_route_witness :
  (forall result, ~ accepted env_no_key result)
  /\ extractInvoiceData (H := parse_example_A) (lit "/9j/4AAQSkZJRg")
       (Responded (served (Route.POST env_no_key) (lit "(misconfigured)")))
     = inr (ServerExtractionFailed (lit "(misconfigured)")).
Proof.
  assert (H : forall result, ~ accepted env_no_key result).
  { intros result (body & up & _ & _ & _ & Hk & _). discriminate Hk. }
  split; [exact H|].
  exact (proj2 (extraction_through_route (H := parse_example_A) env_no_key _ _) H).
Defined.

(** ** Runs: the payload sent, the selection, the flags *)

Section Runs.
Context `{!JSON}.

(** When the awaiting function resumes it stays where it is, or goes
    through its [try] block, which leaves the error message alone, or
    through its [catch] block, which sets the batch error. *)
Lemma resume_cases r :
  selectedFiles (state (resume r)) = selectedFiles (state r)
  /\ (phase r <> Awaiting -> resume r = r)
  /\ (resume r = r
      \/ phase (resume r) = Surfaced /\ error (state (resume r)) = error (state r)
      \/ phase (resume r) = Crashed /\ error (state (resume r)) = criticalMessage).
Proof.
  unfold resume. destruct (phase r); [|auto|auto].
  split_and!; [|done|].
  - destruct (Promise_all _); [done| |done]. by destruct (sanitizedResults _).
  - destruct (Promise_all _); [auto| |auto]. destruct (sanitizedResults _); auto.
Qed.

Lemma act_selection {R R'} (st1 : StateOf R) (st2 : StateOf R') a :
  selectedFiles st1 = selectedFiles st2 ->
  selectedFiles (act st1 a) = selectedFiles (act st2 a).
Proof.
  intros Hsel. destruct a as [[chosen|]|index]; cbn [act].
  - by rewrite !handleFileSelection_selected, Hsel.
  - done.
  - unfold removeFile. cbn [selectedFiles setError setSelectedFiles]. by rewrite Hsel.
Qed.

Lemma exec_selection {R} events : forall r r' (st : StateOf R),
  exec r events = Some r' ->
  selectedFiles (state r) = selectedFiles st ->
  selectedFiles (state r') = selectedFiles (run_actions st (user_actions events)).
Proof.
  induction events as [|e events IH]; intros r r' st; cbn [exec].
  - by intros [= <-].
  - destruct (step r e) as [r1|] eqn:Hs; cbn [mbind option_bind]; [|done].
    intros Hex Hsel. destruct (target e) as [i|] eqn:Hi.
    + destruct (step_file r e i r1 Hi Hs) as (file & t & t' & _ & _ & _ & ->).
      assert (He : user_actions (e :: events) = user_actions events)
        by by destruct e.
      rewrite He. eapply IH; [done|].
      by rewrite (proj1 (resume_cases _)).
    + destruct e as [| | |a]; try done.
      rewrite (step_user _ _ _ Hs) in Hex.
      change (user_actions (User a :: events)) with (a :: user_actions events).
      unfold run_actions. cbn [foldl]. eapply (IH _ _ (act st a)); [done|].
      cbn [state]. by apply act_selection.
Qed.

(** While the user does nothing, the error message changes only where the
    [catch] block sets the batch error. *)
Lemma exec_error_quiet events : forall r r',
  exec r events = Some r' ->
  user_actions events = [] ->
  (phase r <> Awaiting ->
   phase r' = phase r /\ error (state r') = error (state r))
  /\ (phase r = Awaiting ->
      error (state r')
      = match phase r' with Crashed => criticalMessage | _ => error (state r) end).
Proof.
  induction events as [|e events IH]; intros r r'; cbn [exec].
  - intros [= <-] _. split; [done|]. by intros ->.
  - destruct (step r e) as [r1|] eqn:Hs; cbn [mbind option_bind]; [|done].
    intros Hex Hquiet. destruct (target e) as [i|] eqn:Hi; [|by destruct e].
    assert (He : user_actions (e :: events) = user_actions events) by by destruct e.
    rewrite He in Hquiet. destruct (IH _ _ Hex Hquiet) as [IHrest IHwait].
    destruct (step_file r e i r1 Hi Hs) as (file & t & t' & _ & _ & _ & Hr1).
    destruct (resume_cases {| state := state r; files := files r;
      processingPromises := <[i := t']> (processingPromises r); phase := phase r |})
      as (_ & Hsame & Hcases).
    rewrite <- Hr1 in Hsame, Hcases. cbn [phase state] in Hsame, Hcases.
    split.
    + intros Hp. rewrite (Hsame Hp) in IHrest. cbn [phase state] in IHrest.
      by apply IHrest.
    + intros Hp. destruct Hcases as [Heq|[[Hs1 He1]|[Hs1 He1]]].
      * rewrite Heq in IHwait. cbn [phase state] in IHwait. by apply IHwait.
      * destruct IHrest as [-> ->]; [by rewrite Hs1|]. by rewrite Hs1.
      * destruct IHrest as [-> ->]; [by rewrite Hs1|]. by rewrite Hs1.
Qed.

Lemma task_exec_extracting file events p :
  task_exec file Reading events = Some (Extracting p) ->
  exists e result,
    events = [e] /\ task_step file Reading e = Some (Extracting p)
    /\ (forall i, target e = Some i -> e = ReaderLoad i result)
    /\ payload result = Some p /\ p <> [].
Proof.
  destruct events as [|e events]; [done|]. cbn [task_exec].
  destruct (task_step file Reading e) as [t1|] eqn:H1; cbn [mbind option_bind]; [|done].
  destruct e as [i result|i|i answer|a]; try done.
  - cbn [task_step] in H1. injection H1 as <-. unfold onload.
    destruct (payload result) as [[|c q]|] eqn:Hp; cbn [truthy or_empty].
    + destruct events as [|e2 events]; [done|]. by destruct e2.
    + destruct events as [|e2 events].
      * intros [= <-]. exists (ReaderLoad i result), result.
        split_and!; try done.
        -- cbn [task_step]. unfold onload. by rewrite Hp.
        -- by intros j [= <-].
      * cbn [task_exec].
        destruct (task_step file (Extracting (c :: q)) e2) as [t2|] eqn:H2;
          cbn [mbind option_bind]; [|done].
        destruct e2 as [| |j answer|]; try done. cbn [task_step] in H2.
        injection H2 as <-.
        destruct (onextracted_fulfilled file (c :: q) answer) as (v & ->).
        destruct events as [|e3 events]; [done|]. by destruct e3.
    + destruct events as [|e2 events]; [done|]. by destruct e2.
  - cbn [task_step] in H1. injection H1 as <-.
    destruct events as [|e2 events]; [done|]. by destruct e2.
Qed.

(** X11. In a run, a file whose extraction is awaited has so far received
    exactly one event, the load of its own reader, and the payload sent to
    the gateway is the payload of that result and is not empty: the gateway
    is never called without an image, nor with the image of another file. *)
Theorem gateway_gets_own_payload (st : State) (r0 r : Run) (events : list Event)
    (i : nat) (p : jsstring) :
  processInvoices st = inr r0 ->
  exec r0 events = Some r ->
  processingPromises r !! i = Some (Extracting p) ->
  exists result,
    events_of i events = [ReaderLoad i result]
    /\ payload result = Some p
    /\ p <> [].
Proof.
  intros Hstart Hex Hp.
  assert (Hi : i < length (selectedFiles st)).
  { apply lookup_lt_Some in Hp. by rewrite (run_length _ _ _ _ Hstart Hex) in Hp. }
  destruct (lookup_lt_is_Some_2 _ i Hi) as [file Hf].
  assert (Hrun : task_exec file Reading (events_of i events) = Some (Extracting p)).
  { by rewrite <- Hp, (run_promise _ _ _ _ _ _ Hstart Hex Hf). }
  destruct (task_exec_extracting _ _ _ Hrun) as (e & result & Hev & _ & Hload & Hpay & Hne).
  exists result. split_and!; try done.
  rewrite Hev. f_equal. apply Hload.
  assert (He : e ∈ events_of i events) by (rewrite Hev; by left).
  unfold events_of in He. apply list_elem_of_In, filter_In in He as [_ He].
  by apply bool_decide_eq_true in He.
Qed.

Lemma started_nonempty {R} (st : StateOf R) r0 :
  processInvoices st = inr r0 ->
  selectedFiles st <> [] /\ files r0 = selectedFiles st /\ state r0 = resetUI st
  /\ phase r0 = Awaiting.
Proof.
  unfold processInvoices. destruct (selectedFiles st) eqn:Hs; [done|].
  cbn [length Nat.eqb]. by intros [= <-].
Qed.

(** X18. A run never touches the selection: at every moment the selected
    files are those that the user's own actions during the run would have
    left without the run. *)
Theorem run_leaves_selection (st : State) (r0 r : Run) (events : list Event) :
  processInvoices st = inr r0 ->
  exec r0 events = Some r ->
  selectedFiles (ui r) = selectedFiles (run_actions st (user_actions events)).
Proof.
  intros Hstart Hex. cbn [ui selectedFiles]. eapply exec_selection; [done|].
  by destruct (started_nonempty _ _ Hstart) as (_ & _ & -> & _).
Qed.

(** X19. A completed run has cleared the busy flag and is through its [try]
    block or through its [catch] block, and then without results. When the
    user did nothing meanwhile the selection is the one the run started
    with, and the error message is empty after the [try] block and the batch
    error after the [catch] block. *)
Theorem run_completion (st : State) (r0 r : Run) (events : list Event) :
  processInvoices st = inr r0 ->
  exec r0 events = Some r ->
  all_settled r = true ->
  isLoading (state r) = false
  /\ (phase r = Surfaced \/ phase r = Crashed /\ extractedData (state r) = [])
  /\ (user_actions events = [] ->
      selectedFiles (state r) = selectedFiles st
      /\ error (state r)
         = match phase r with Crashed => criticalMessage | _ => [] end).
Proof.
  intros Hstart Hex Hall.
  pose proof (Invariant_start _ _ Hstart) as Hinv0.
  pose proof (Invariant_exec _ _ _ Hinv0 Hex) as Hinv.
  destruct (results_settled r Hinv Hall) as (Hload & Hdata & Hphase).
  destruct (started_nonempty _ _ Hstart) as (_ & _ & Hstate & Hwait).
  split_and!.
  - done.
  - rewrite Hdata, Hphase. destruct (sanitizedResults _); auto.
  - intros Hquiet. split.
    + rewrite (exec_selection _ _ _ st Hex), Hquiet; [done|]. by rewrite Hstate.
    + destruct (exec_error_quiet _ _ _ Hex Hquiet) as [_ Herr].
      rewrite (Herr Hwait), Hstate. done.
Qed.

End Runs.

Lemma gateway_gets_own_payload_witness :
  let r := after (H := parse_example_A) two_run delivery_busy in
  processInvoices two_selected = inr two_run
  /\ exec (H := parse_example_A) two_run delivery_busy = Some r
  /\ processingPromises r !! 0 = Some (Extracting (lit "/9j/4AAQSkZJRg"))
  /\ exists result,
      events_of 0 delivery_busy = [ReaderLoad 0 result]
      /\ payload result = Some (lit "/9j/4AAQSkZJRg").
Proof.
  intros r.
  assert (H1 : processInvoices two_selected = inr two_run) by reflexivity.
  assert (H2 : exec (H := parse_example_A) two_run delivery_busy = Some r)
    by (vm_compute; reflexivity).
  assert (H3 : processingPromises r !! 0 = Some (Extracting (lit "/9j/4AAQSkZJRg")))
    by (vm_compute; reflexivity).
  split; [exact H1|]. split; [exact H2|]. split; [exact H3|].
  destruct (gateway_gets_own_payload (H := parse_example_A)
              two_selected two_run r delivery_busy 0 _ H1 H2 H3)
    as (result & Hev & Hpay & _).
  exists result. split; [exact Hev|exact Hpay].
Defined.

Lemma run_leaves_selection_witness :
  let r := after (H := parse_example_A) two_run delivery_busy in
  processInvoices two_selected = inr two_run
  /\ exec (H := parse_example_A) two_run delivery_busy = Some r
  /\ selectedFiles (ui r) = selectedFiles (removeFile 1 two_selected).
Proof.
  intros r.
  assert (H1 : processInvoices two_selected = inr two_run) by reflexivity.
  assert (H2 : exec (H := parse_example_A) two_run delivery_busy = Some r)
    by (vm_compute; reflexivity).
  split; [exact H1|]. split; [exact H2|].
  exact (run_leaves_selection (H := parse_example_A)
           two_selected two_run r delivery_busy H1 H2).
Defined.

Lemma run_completion_witness :
  let r := after (H := parse_texts) one_run (delivery_with text_number) in
  processInvoices one_selected = inr one_run
  /\ exec (H := parse_texts) one_run (delivery_with text_number) = Some r
  /\ all_settled r = true
  /\ user_actions (delivery_with text_number) = []
  /\ isLoading (state r) = false
  /\ error (state r) = criticalMessage.
Proof.
  intros r.
  assert (H1 : processInvoices one_selected = inr one_run) by reflexivity.
  assert (H2 : exec (H := parse_texts) one_run (delivery_with text_number) = Some r)
    by (vm_compute; reflexivity).
  assert (H3 : all_settled r = true) by (vm_compute; reflexivity).
  assert (H4 : user_actions (delivery_with text_number) = []) by reflexivity.
  split; [exact H1|]. split; [exact H2|]. split; [exact H3|]. split; [exact H4|].
  destruct (run_completion (H := parse_texts)
              one_selected one_run r (delivery_with text_number) H1 H2 H3)
    as (Hl & _ & Hq).
  split; [exact Hl|]. exact (proj2 (Hq H4)).
Defined.

(** ** Export: what a successful export leaves behind *)

(** The browser after a successful export of [data]: one more worksheet, one
    more workbook that refers to it, one more file. *)
Lemma downloadExcel_run st b :
  XLSX_defined b = true ->
  extractedData st <> [] ->
  downloadExcel st b
  = (st,
     {| XLSX_defined := true;
        worksheets := worksheets b ++ [exportSheet (extractedData st)];
        workbooks := workbooks b ++ [[(lit "Invoices", length (worksheets b))]];
        downloads :=
          downloads b
          ++ [(lit "InvoiceData.xlsx",
               [(lit "Invoices", exportSheet (extractedData st))])] |}).
Proof.
  intros Hx Hdata.
  unfold downloadExcel, mbind, Effect_bind, bind, typeof_XLSX_undefined.
  rewrite Hx. cbn [negb].
  destruct (extractedData st) as [|item data] eqn:Hd; [done|].
  cbn [length Nat.eqb]. rewrite <- Hd.
  unfold XLSX.json_to_sheet, XLSX.book_new, XLSX.book_append_sheet, set_cols,
    XLSX.writeFile, mret, Effect_ret, pure.
  cbn [fst snd worksheets workbooks downloads XLSX_defined].
  rewrite !lookup_snoc. rewrite !insert_snoc.
  unfold XLSX.contents. cbn [worksheets workbooks].
  rewrite lookup_snoc. cbn [default]. unfold id. cbn [app omap list_omap].
  rewrite lookup_snoc. cbn [fmap option_fmap option_map].
  assert (Hsheet :
    {| header := header (XLSX.sheet_of (sheetRow <$> extractedData st));
       rows := rows (XLSX.sheet_of (sheetRow <$> extractedData st));
       cols := Some [ {| wch := 20 |}; {| wch := 20 |}; {| wch := 15 |}; {| wch := 15 |};
                      {| wch := fold_left
                           (fun w r => Nat.max w
                              (length (or_empty (property (lit "Source File") r))))
                           (sheetRow <$> extractedData st) 10 |} ] |}
    = exportSheet (extractedData st)).
  { unfold exportSheet. cbn [header rows XLSX.sheet_of].
    rewrite keys_export by (rewrite Hd; done). rewrite max_width_fold.
    f_equal. rewrite <- list_fmap_compose. apply list_fmap_ext. by intros _ r _. }
  rewrite Hsheet, ?Hx. reflexivity.
Qed.

(** X24. Exporting twice writes two files with the same contents: the
    second export builds its own worksheet and workbook and leaves the
    objects and the file of the first as they were. *)
Theorem downloadExcel_twice (st : State) (b : Browser) :
  XLSX_defined b = true ->
  extractedData st <> [] ->
  let b1 := (downloadExcel st b).2 in
  let b2 := (downloadExcel st b1).2 in
  let file := (lit "InvoiceData.xlsx", [(lit "Invoices", exportSheet (extractedData st))]) in
  downloads b2 = downloads b ++ [file; file]
  /\ worksheets b2
     = worksheets b ++ [exportSheet (extractedData st); exportSheet (extractedData st)]
  /\ workbooks b2
     = workbooks b ++ [ [(lit "Invoices", length (worksheets b))];
                        [(lit "Invoices", S (length (worksheets b)))] ].
Proof.
  intros Hx Hdata. cbv zeta.
  rewrite (downloadExcel_run st b Hx Hdata). cbn [snd].
  rewrite downloadExcel_run; [|done|done].
  cbn [snd downloads worksheets workbooks].
  rewrite <- !app_assoc. cbn [app]. rewrite length_app. cbn [length].
  by rewrite Nat.add_1_r.
Qed.

Lemma downloadExcel_twice_witness :
  XLSX_defined browser_ready = true
  /\ extractedData results_shown <> []
  /\ length (downloads (downloadExcel results_shown
                          (downloadExcel results_shown browser_ready).2).2) = 2.
Proof.
  assert (H1 : XLSX_defined browser_ready = true) by reflexivity.
  assert (H2 : extractedData results_shown <> []) by (vm_compute; discriminate).
  split; [exact H1|]. split; [exact H2|].
  destruct (downloadExcel_twice results_shown browser_ready H1 H2) as (Hd & _).
  cbv zeta in Hd. rewrite Hd. reflexivity.
Defined.




(** ** The page *)

(** X23. Inside the results section the placeholder "No data extracted yet"
    is never rendered: the section is rendered only when the run is busy,
    there are results or there is an error, and the placeholder needs none
    of the three. The loader and the table are never rendered together, and
    a rendered section comes with the loader, the table or the error
    banner. *)
Theorem placeholder_never_shown (st : State) (res : ResultsSection) :
  resultsSection (Home st) = Some res ->
  placeholderShown res = false
  /\ (loaderShown res = true -> resultsTable res = None)
  /\ (loaderShown res = true
      \/ is_Some (resultsTable res)
      \/ is_Some (errorBanner (Home st))).
Proof.
  unfold Home. cbn [resultsSection errorBanner].
  destruct (isLoading st) eqn:Hl; cbn [orb negb andb].
  - intros [= <-]. cbn. auto.
  - destruct (extractedData st) as [|item data] eqn:Hd; cbn [length Nat.ltb Nat.leb
      Nat.eqb orb andb].
    + destruct (truthy (Some (error st))) eqn:He; [|done].
      intros [= <-]. cbn. split_and!; [done|done|]. right. right. by eexists.
    + intros [= <-]. cbn. split_and!; [done|done|]. right. left. by eexists.
Qed.

Lemma placeholder_never_shown_witness :
  exists res,
    resultsSection (Home stale_error) = Some res
    /\ placeholderShown res = false.
Proof.
  eexists. split; [reflexivity|].
  exact (proj1 (placeholder_never_shown stale_error _ eq_refl)).
Defined.

(** X17. The buttons are disabled where the guards of their handlers would
    fire. With the choose button disabled, every choice of files is
    rejected by the cap check; with the process button enabled,
    [processInvoices] starts a run on the selected files, and on an empty
    selection it only sets "No files selected."; with the download button
    enabled and the library loaded, [downloadExcel] writes a file. *)
Theorem buttons_match_guards (st : State) (b : Browser) :
  (chooseDisabled (Home st) = true ->
   forall chosen, chosen <> [] ->
     handleFileSelection (Some chosen) st
     = setError (capMessage (length chosen) (length (selectedFiles st))) st)
  /\ (processDisabled (Home st) = false ->
      exists r0, processInvoices st = inr r0 /\ files r0 = selectedFiles st)
  /\ (selectedFiles st = [] ->
      processDisabled (Home st) = true
      /\ processInvoices st = inl (setError (lit "No files selected.") st))
  /\ (forall res,
        resultsSection (Home st) = Some res ->
        downloadDisabled res = false ->
        XLSX_defined b = true ->
        (downloadExcel st b).1 = st
        /\ length (downloads (downloadExcel st b).2) = S (length (downloads b))).
Proof.
  split_and!.
  - unfold Home. cbn [chooseDisabled]. intros Hfull chosen Hne.
    apply Nat.leb_le in Hfull. apply handleFileSelection_rejects; [done|].
    destruct chosen; [done|]. unfold MAX_FILES. cbn [length]. lia.
  - unfold Home. cbn [processDisabled]. intros Hon.
    apply orb_false_iff in Hon as [Hn _]. apply Nat.eqb_neq in Hn.
    rewrite processInvoices_starts by (by destruct (selectedFiles st)).
    by eexists.
  - intros Hnone. unfold Home, processInvoices. cbn [processDisabled].
    by rewrite Hnone.
  - intros res Hres Hon Hx.
    assert (Hdata : extractedData st <> []).
    { revert Hres Hon. unfold Home. cbn [resultsSection].
      destruct (_ || _ || _); [|done]. intros [= <-]. cbn [downloadDisabled].
      by destruct (extractedData st). }
    rewrite (downloadExcel_run st b Hx Hdata). cbn [fst snd downloads].
    split; [done|]. rewrite length_app. cbn [length]. lia.
Qed.

Lemma buttons_match_guards_witness :
  chooseDisabled (Home ten_selected) = true
  /\ processDisabled (Home two_selected) = false
  /\ handleFileSelection (Some [file_a]) ten_selected
     = setError (capMessage 1 10) ten_selected
  /\ exists r0, processInvoices two_selected = inr r0.
Proof.
  assert (H1 : chooseDisabled (Home ten_selected) = true) by reflexivity.
  assert (H2 : processDisabled (Home two_selected) = false) by reflexivity.
  split; [exact H1|]. split; [exact H2|]. split.
  - destruct (buttons_match_guards ten_selected browser_ready) as (Hc & _).
    exact (Hc H1 [file_a] ltac:(discriminate)).
  - destruct (buttons_match_guards two_selected browser_ready) as (_ & Hp & _).
    destruct (Hp H2) as (r0 & Hr0 & _). by exists r0.
Defined.

Lemma lit_NA_not_digits : digits_only (lit "N/A") = false.
Proof. reflexivity. Qed.

Lemma filter_nil_iff {A} (p : A -> bool) (l : list A) :
  List.filter p l = [] <-> forallb (fun x => negb (p x)) l = true.
Proof.
  induction l as [|x l IH]; simpl; [done|].
  destruct (p x); simpl; [split; done|apply IH].
Qed.

Lemma or_NA_sanitized raw :
  or_NA (sanitizeInvoiceNumber raw) = lit "N/A" <-> sanitizeInvoiceNumber raw = [].
Proof.
  split.
  - destruct (sanitizeInvoiceNumber raw) as [|c s] eqn:Hs; [done|].
    cbn [or_NA]. intros Heq.
    pose proof (sanitizeInvoiceNumber_digits_only raw) as Hd.
    rewrite Hs, Heq, lit_NA_not_digits in Hd. done.
  - by intros ->.
Qed.

(** X22. For a record of the result set, the table shows "N/A" as invoice
    number exactly when the exported sheet has an empty cell there, and that
    is exactly when the extracted invoice number holds no digit, as in
    "Error" and "N/A". *)
Theorem table_NA_where_export_empty (r : ExtractedInvoiceData) :
  (tableRow (sanitized r) !! 1 = Some (lit "N/A")
   <-> dataRow (sanitized r) !! 0 = Some (Some []))
  /\ (dataRow (sanitized r) !! 0 = Some (Some [])
      <-> forallb (fun c => negb (is_digit c)) (invoiceNumber r) = true).
Proof.
  unfold tableRow, dataRow, sanitized.
  cbn [lookup list_lookup invoiceNumber fileName].
  split.
  - split; intros [= Heq].
    + apply or_NA_sanitized in Heq. by rewrite Heq.
    + by rewrite Heq.
  - unfold sanitizeInvoiceNumber. cbn [or_empty]. rewrite replace_nondigits_filter.
    unfold digit_subsequence. rewrite <- filter_nil_iff.
    split; [by intros [= ->]|by intros ->].
Qed.

(** X27. The size text of a file card is the size in KB rounded to the
    nearest tenth, halves upwards: it is off by at most 0.05 KB, a larger
    file never shows a smaller size, and "0.0" is shown exactly for files
    under 52 bytes. *)
Theorem tenths_of_KB_rounds (size : N) :
  (1024 * tenths_of_KB size <= 10 * size + 512 < 1024 * tenths_of_KB size + 1024)%N
  /\ (forall larger, (size <= larger)%N ->
        (tenths_of_KB size <= tenths_of_KB larger)%N)
  /\ (tenths_of_KB size = 0%N <-> (size < 52)%N).
Proof.
  unfold tenths_of_KB.
  pose proof (N.div_mod' (10 * size + 512) 1024) as Hdm.
  pose proof (N.mod_lt (10 * size + 512) 1024 ltac:(lia)) as Hlt.
  split; [split|split].
  - rewrite Hdm at 2. apply N.le_add_r.
  - rewrite Hdm at 1. apply N.add_lt_mono_l. exact Hlt.
  - intros larger Hle. apply N.Div0.div_le_mono. lia.
  - rewrite N.div_small_iff by lia. lia.
Qed.

Lemma tenths_of_KB_rounds_witness :
  (1024 <= 1100)%N
  /\ tenths_of_KB 1024 = 10%N
  /\ (tenths_of_KB 1024 <= tenths_of_KB 1100)%N.
Proof.
  assert (H : (1024 <= 1100)%N) by lia.
  split; [exact H|]. split; [reflexivity|].
  exact (proj1 (proj2 (tenths_of_KB_rounds 1024)) 1100%N H).
Defined.

(** X28. The remove button of a file card removes the file that the card
    shows: the card at position [i] bears the name of the selected file at
    [i] and passes [i] to [removeFile], which takes out that file and no
    other. *)
Theorem remove_button_removes_its_file (st : State) (heading : jsstring)
    (cards : list FileCard) (i : nat) (card : FileCard) :
  selectedList (Home st) = Some (heading, cards) ->
  cards !! i = Some card ->
  length cards = length (selectedFiles st)
  /\ exists file,
      selectedFiles st !! i = Some file
      /\ card_name card = File.name file
      /\ card_remove card = i
      /\ selectedFiles (removeFile (card_remove card) st)
         = take i (selectedFiles st) ++ drop (S i) (selectedFiles st)
      /\ S (length (selectedFiles (removeFile (card_remove card) st)))
         = length (selectedFiles st).
Proof.
  unfold Home. cbn [selectedList]. destruct (0 <? _); [|done].
  intros [= _ <-]. rewrite list_lookup_imap, length_imap.
  destruct (selectedFiles st !! i) as [file|] eqn:Hf; [|done].
  intros [= <-]. split; [done|]. exists file. cbn [fileCard card_name card_remove].
  split_and!; try done.
  - unfold removeFile. cbn [selectedFiles setError setSelectedFiles].
    apply remove_index_take_drop.
  - unfold removeFile. cbn [selectedFiles setError setSelectedFiles].
    rewrite remove_index_take_drop, length_app, length_take, length_drop.
    apply lookup_lt_Some in Hf. lia.
Qed.

Lemma remove_button_removes_its_file_witness :
  exists heading cards card,
    selectedList (Home two_selected) = Some (heading, cards)
    /\ cards !! 1 = Some card
    /\ card_name card = lit "b.jpg"
    /\ selectedFiles (removeFile (card_remove card) two_selected) = [file_a].
Proof.
  eexists _, _, _.
  assert (H1 : selectedList (Home two_selected)
               = Some (lit "Selected Files (2)", imap fileCard [file_a; file_b]))
    by reflexivity.
  assert (H2 : imap fileCard [file_a; file_b] !! 1 = Some (fileCard 1 file_b))
    by reflexivity.
  split; [exact H1|]. split; [exact H2|]. split; [reflexivity|].
  destruct (remove_button_removes_its_file two_selected _ _ 1 _ H1 H2)
    as (_ & file & _ & _ & _ & Hsel & _).
  rewrite Hsel. reflexivity.
Defined.

(** ** Runs as the page shows them and as the export writes them *)

Lemma typed_Some o record :
  typed o = Some record ->
  get (lit "fileName") o = Some (JString (fileName record))
  /\ get (lit "invoiceNumber") o = Some (JString (invoiceNumber record)).
Proof.
  unfold typed.
  destruct (get (lit "fileName") o) as [[| | |s1| |]|]; try done.
  destruct (get (lit "invoiceNumber") o) as [[| | |s2| |]|]; try done.
  cbn [as_string mbind option_bind].
  destruct (as_string (get (lit "companyNumber") o)); cbn [mbind option_bind]; [|done].
  destruct (as_string (get (lit "date") o)); cbn [mbind option_bind]; [|done].
  destruct (as_string (get (lit "totalAmount") o)); cbn [mbind option_bind]; [|done].
  by intros [= <-].
Qed.

Section RunsShown.
Context `{!JSON}.

(** The record of the file at a position in the results of a run that went
    through its [try] block, where they are of the declared type: its name
    is the name of the file, or the [fileName] that the extraction returned,
    and its invoice number has digits only. *)
Lemma record_at {R} (st : StateOf R) r0 r events records i file :
  processInvoices st = inr r0 ->
  exec r0 events = Some r ->
  phase r = Surfaced ->
  mapM typed (extractedData (state r)) = Some records ->
  selectedFiles st !! i = Some file ->
  length records = length (selectedFiles st)
  /\ exists record,
       records !! i = Some record
       /\ JString (fileName record)
          = default (JString (File.name file))
              (returned (events_of i events) ≫= copied (lit "fileName"))
       /\ digits_only (invoiceNumber record) = true.
Proof.
  intros Hstart Hex Hp Htyped Hf.
  pose proof (Invariant_exec _ _ _ (Invariant_start _ _ Hstart) Hex) as Hinv.
  destruct (results_surfaced r Hinv Hp) as [Hall _].
  destruct (run_settled _ _ _ _ Hstart Hex Hall)
    as (_ & [(_ & Hlen & Hrec)|(Hc & _)]); [|congruence].
  split; [by rewrite <- (length_mapM _ _ _ Htyped)|].
  destruct (Hrec i file Hf) as (o & Ho & Hs & Hname).
  apply mapM_Some in Htyped.
  destruct (Forall2_lookup_l _ _ _ _ _ Htyped Ho) as (record & Hi & Hty).
  destruct (typed_Some _ _ Hty) as [Hfn Hin].
  exists record. split; [done|]. split.
  - rewrite Hfn in Hname. by injection Hname.
  - destruct (sanitizedRecord_invoiceNumber _ _ Hs) as (digits & Hget & Hd).
    rewrite Hin in Hget. by injection Hget as ->.
Qed.

(** X20. While a promise of a run is pending the page shows the loader and
    no table, and the buttons that start a run and that export are both
    disabled: no second run and no export can be started from the page. *)
Theorem page_while_busy (st : State) (r0 r : Run) (events : list Event) :
  processInvoices st = inr r0 ->
  exec r0 events = Some r ->
  all_settled r = false ->
  processDisabled (Home (ui r)) = true
  /\ processLabel (Home (ui r)) = lit "Processing..."
  /\ exists res,
      resultsSection (Home (ui r)) = Some res
      /\ loaderShown res = true
      /\ resultsTable res = None
      /\ downloadDisabled res = true.
Proof.
  intros Hstart Hex Hall.
  pose proof (Invariant_exec _ _ _ (Invariant_start _ _ Hstart) Hex) as Hinv.
  destruct (results_pending r Hinv Hall) as (_ & Hdata & Hload).
  unfold Home, ui.
  cbn [processDisabled processLabel resultsSection selectedFiles extractedData
       isLoading error].
  rewrite Hload, Hdata. cbn [orb length negb andb mapM default].
  split_and!; [by rewrite orb_true_r|done|].
  eexists. split; [reflexivity|]. done.
Qed.

(** X21. When a run has gone through its [try] block and its records are
    of the declared type, the page shows the table and not the loader, and
    the export button is enabled. The table has one row per file of the
    batch, in the order of the batch; a row starts with the name of its
    file, or with the [fileName] that the extraction of the file returned,
    and its invoice-number cell is "N/A" or a non-empty string of digits. *)
Theorem page_when_done (st : State) (r0 r : Run) (events : list Event)
    (records : list ExtractedInvoiceData) :
  processInvoices st = inr r0 ->
  exec r0 events = Some r ->
  phase r = Surfaced ->
  mapM typed (extractedData (state r)) = Some records ->
  exists res table,
    resultsSection (Home (ui r)) = Some res
    /\ loaderShown res = false
    /\ downloadDisabled res = false
    /\ resultsTable res = Some table
    /\ length table = length (selectedFiles st)
    /\ forall i file,
        selectedFiles st !! i = Some file ->
        exists row name,
          table !! i = Some row
          /\ row !! 0 = Some (or_NA name)
          /\ JString name
             = default (JString (File.name file))
                 (returned (events_of i events) ≫= copied (lit "fileName"))
          /\ (row !! 1 = Some (lit "N/A")
              \/ exists digits,
                   row !! 1 = Some digits /\ digits <> []
                   /\ digits_only digits = true).
Proof.
  intros Hstart Hex Hp Htyped.
  pose proof (Invariant_exec _ _ _ (Invariant_start _ _ Hstart) Hex) as Hinv.
  destruct (results_surfaced r Hinv Hp) as [Hall _].
  destruct (results_settled r Hinv Hall) as (Hload & _).
  destruct (started_nonempty _ _ Hstart) as (Hne & _).
  assert (Hlen : length records = length (selectedFiles st)).
  { destruct (selectedFiles st) as [|file files] eqn:Hsel; [done|].
    rewrite <- Hsel in *.
    assert (Hf : selectedFiles st !! 0 = Some file) by by rewrite Hsel.
    by destruct (record_at _ _ _ _ _ _ _ Hstart Hex Hp Htyped Hf). }
  assert (Hpos : (0 <? length records) = true).
  { apply Nat.ltb_lt. rewrite Hlen. destruct (selectedFiles st); [done|simpl; lia]. }
  assert (Hnz : (length records =? 0) = false).
  { apply Nat.eqb_neq. apply Nat.ltb_lt in Hpos. lia. }
  unfold Home, ui. cbn [resultsSection selectedFiles extractedData isLoading error].
  rewrite Htyped, Hload. cbn [default]. unfold id. rewrite Hpos, Hnz. cbn [orb negb andb].
  eexists _, _. split; [reflexivity|].
  cbn [loaderShown downloadDisabled resultsTable].
  split_and!; try done.
  - by rewrite length_fmap.
  - intros i file Hf.
    destruct (record_at _ _ _ _ _ _ _ Hstart Hex Hp Htyped Hf)
      as (_ & record & Hrec & Hname & Hdigits).
    exists (tableRow record), (fileName record).
    rewrite list_lookup_fmap, Hrec.
    split; [done|]. unfold tableRow. cbn [lookup list_lookup].
    split; [done|]. split; [done|].
    destruct (invoiceNumber record) as [|c s] eqn:Hs.
    + by left.
    + right. exists (c :: s). by split_and!.
Qed.

(** X25. Exporting the results of a run that went through its [try] block
    with records of the declared type, with the library loaded, writes a
    sheet with one row per file of the batch, in the order of the batch: the
    first cell of a row holds digits only and the last cell the name of the
    file, or the [fileName] that the extraction of the file returned. *)
Theorem export_after_run (st : State) (r0 r : Run) (events : list Event)
    (records : list ExtractedInvoiceData) (b : Browser) :
  processInvoices st = inr r0 ->
  exec r0 events = Some r ->
  phase r = Surfaced ->
  mapM typed (extractedData (state r)) = Some records ->
  XLSX_defined b = true ->
  exists sheet,
    downloads (downloadExcel (ui r) b).2
    = downloads b ++ [(lit "InvoiceData.xlsx", [(lit "Invoices", sheet)])]
    /\ length (rows sheet) = length (selectedFiles st)
    /\ forall i file,
        selectedFiles st !! i = Some file ->
        exists row digits name,
          rows sheet !! i = Some row
          /\ row !! 0 = Some (Some digits)
          /\ digits_only digits = true
          /\ row !! 4 = Some (Some name)
          /\ JString name
             = default (JString (File.name file))
                 (returned (events_of i events) ≫= copied (lit "fileName")).
Proof.
  intros Hstart Hex Hp Htyped Hx.
  destruct (started_nonempty _ _ Hstart) as (Hne & _).
  assert (Hlen : length records = length (selectedFiles st)).
  { destruct (selectedFiles st) as [|file files] eqn:Hsel; [done|].
    rewrite <- Hsel in *.
    assert (Hf : selectedFiles st !! 0 = Some file) by by rewrite Hsel.
    by destruct (record_at _ _ _ _ _ _ _ Hstart Hex Hp Htyped Hf). }
  assert (Hui : extractedData (ui r) = records).
  { unfold ui. cbn [extractedData]. by rewrite Htyped. }
  assert (Hdata : extractedData (ui r) <> []).
  { rewrite Hui. intros Hnil. rewrite Hnil in Hlen. by destruct (selectedFiles st). }
  rewrite (downloadExcel_run (ui r) b Hx Hdata). cbn [snd downloads].
  exists (exportSheet (extractedData (ui r))). split; [done|].
  rewrite Hui. cbn [exportSheet rows]. split; [by rewrite length_fmap|].
  intros i file Hf.
  destruct (record_at _ _ _ _ _ _ _ Hstart Hex Hp Htyped Hf)
    as (_ & record & Hrec & Hname & Hdigits).
  exists (dataRow record), (invoiceNumber record), (fileName record).
  rewrite list_lookup_fmap, Hrec. split; [done|].
  unfold dataRow. cbn [lookup list_lookup]. by split_and!.
Qed.

End RunsShown.

Lemma page_while_busy_witness :
  let r := after (H := parse_example_A) two_run delivery_busy in
  processInvoices two_selected = inr two_run
  /\ exec (H := parse_example_A) two_run delivery_busy = Some r
  /\ all_settled r = false
  /\ processDisabled (Home (ui r)) = true.
Proof.
  intros r.
  assert (H1 : processInvoices two_selected = inr two_run) by reflexivity.
  assert (H2 : exec (H := parse_example_A) two_run delivery_busy = Some r)
    by (vm_compute; reflexivity).
  assert (H3 : all_settled r = false) by (vm_compute; reflexivity).
  split; [exact H1|]. split; [exact H2|]. split; [exact H3|].
  exact (proj1 (page_while_busy (H := parse_example_A) two_selected two_run r delivery_busy H1 H2 H3)).
Defined.

Lemma page_when_done_witness :
  let r := after (H := parse_texts) one_run (delivery_with text_fileName) in
  processInvoices one_selected = inr one_run
  /\ exec (H := parse_texts) one_run (delivery_with text_fileName) = Some r
  /\ phase r = Surfaced
  /\ is_Some (mapM typed (extractedData (state r)))
  /\ exists res table row,
      resultsSection (Home (ui r)) = Some res
      /\ resultsTable res = Some table
      /\ length table = 1
      /\ table !! 0 = Some row
      /\ row !! 0 = Some (lit "other.jpg").
Proof.
  intros r.
  assert (H1 : processInvoices one_selected = inr one_run) by reflexivity.
  assert (H2 : exec (H := parse_texts) one_run (delivery_with text_fileName) = Some r)
    by (vm_compute; reflexivity).
  assert (H3 : phase r = Surfaced) by (vm_compute; reflexivity).
  assert (H4 : is_Some (mapM typed (extractedData (state r))))
    by (vm_compute; eexists; reflexivity).
  split; [exact H1|]. split; [exact H2|]. split; [exact H3|]. split; [exact H4|].
  destruct H4 as [records H4].
  destruct (page_when_done (H := parse_texts) one_selected one_run r
              (delivery_with text_fileName) records H1 H2 H3 H4)
    as (res & table & Hres & _ & _ & Htable & Hlen & Hrows).
  destruct (Hrows 0 file_a eq_refl) as (row & name & Hrow & Hcell & Hname & _).
  exists res, table, row. split; [exact Hres|]. split; [exact Htable|].
  split; [exact Hlen|]. split; [exact Hrow|].
  rewrite Hcell. f_equal.
  assert (Hown : default (JString (File.name file_a))
                   (returned (H := parse_texts) (events_of 0 (delivery_with text_fileName))
                      ≫= copied (lit "fileName"))
                 = JString (lit "other.jpg")) by (vm_compute; reflexivity).
  rewrite Hown in Hname. injection Hname as ->. reflexivity.
Defined.

Lemma export_after_run_witness :
  let r := after (H := parse_example_A) two_run delivery_read_error in
  processInvoices two_selected = inr two_run
  /\ exec (H := parse_example_A) two_run delivery_read_error = Some r
  /\ phase r = Surfaced
  /\ is_Some (mapM typed (extractedData (state r)))
  /\ XLSX_defined browser_ready = true
  /\ exists sheet,
      downloads (downloadExcel (ui r) browser_ready).2
      = [(lit "InvoiceData.xlsx", [(lit "Invoices", sheet)])]
      /\ length (rows sheet) = 2.
Proof.
  intros r.
  assert (H1 : processInvoices two_selected = inr two_run) by reflexivity.
  assert (H2 : exec (H := parse_example_A) two_run delivery_read_error = Some r)
    by (vm_compute; reflexivity).
  assert (H3 : phase r = Surfaced) by (vm_compute; reflexivity).
  assert (H4 : is_Some (mapM typed (extractedData (state r))))
    by (vm_compute; eexists; reflexivity).
  assert (H5 : XLSX_defined browser_ready = true) by reflexivity.
  split; [exact H1|]. split; [exact H2|]. split; [exact H3|]. split; [exact H4|].
  split; [exact H5|].
  destruct H4 as [records H4].
  destruct (export_after_run (H := parse_example_A) two_selected two_run r
              delivery_read_error records browser_ready H1 H2 H3 H4 H5)
    as (sheet & Hd & Hl & _).
  exists sheet. split; [exact Hd|exact Hl].
Defined.

(** ** The cap as an invariant *)

(** X1. The cap holds at every moment: from a selection of at most ten
    files, and so from the empty selection the page starts with, no sequence
    of choices and removals leads to more than ten selected files. *)
Theorem selection_cap_invariant (st : State) (actions : list Action) :
  length (selectedFiles st) <= MAX_FILES ->
  length (selectedFiles (run_actions st actions)) <= MAX_FILES.
Proof.
  intros Hst. unfold run_actions.
  induction actions as [|a actions IH] using rev_ind; [done|].
  rewrite foldl_snoc. destruct a as [files|index]; cbn [act].
  - by apply handleFileSelection_within_cap.
  - unfold removeFile. cbn [selectedFiles setError setSelectedFiles].
    etrans; [apply remove_index_length|done].
Qed.

Lemma selection_cap_invariant_witness :
  length (selectedFiles nine_selected) <= MAX_FILES
  /\ length (selectedFiles
               (run_actions nine_selected
                  [Choose (Some [file_a]); Choose (Some [file_b]); Remove 0;
                   Choose (Some [file_b; file_a])]))
     <= MAX_FILES.
Proof.
  assert (H : length (selectedFiles nine_selected) <= MAX_FILES) by (vm_compute; lia).
  split; [exact H|].
  exact (selection_cap_invariant nine_selected _ H).
Defined.
